(** * Python-JobScraper: the two-phase ingestion pipeline

    A shallow embedding of [part2_scrape.py] (listing harvest and bulk
    insert) and [part3_scrape_JD.py] (description backfill), with the
    table of [part1_setup.py] as the data model.

    The PostgreSQL table, the psycopg2 connection, the HTML document and
    the browser are external to the repository.  They appear here through
    the statements and calls the source makes:

    - the table [job_listings] is a list of rows in heap order, and each
      SQL statement of the source is a function on that list;
    - a psycopg2 connection is the committed table, the working copy of an
      open transaction, and the [SERIAL] sequence of the [id] column;
    - BeautifulSoup is an interface ([Soup]) with the four calls the
      scraper makes, and a small document model implements it;
    - the HTTP session and the Selenium driver are oracles handed to the
      functions that call them.

    Python functions with effects live in a monad [Eff] over the
    connection and the log, with exceptions; [try]/[except], [finally]
    and [with] are combinators of it.

    Not modelled: the connection that cannot be opened ([sys.exit(1)] in
    [__enter__]), the pause between two jobs ([time.sleep(2)]), and the
    text of the summaries [main] prints (each [main] returns the numbers
    of its summary instead).  Values of [id] come from the sequence only,
    so the primary key never conflicts.  Texts are strings of characters,
    one [ascii] per character. *)

From Stdlib Require Import ZArith Lia Ascii.
From stdpp Require Import base option list sorting strings gmap.

Local Open Scope Z_scope.

(** ** Python values used by the source *)

Module Py.

(** Truth value of an [Optional[str]]: [None] and [""] are falsy. *)
Definition truthy (v : option string) : bool :=
  match v with
  | None => false
  | Some s => negb (bool_decide (s = ""))
  end.

(** [a or b] on [Optional[str]] operands. *)
Definition or (a b : option string) : option string :=
  if truthy a then a else b.

(** [sub in s] for strings. *)
Fixpoint contains (sub s : string) : bool :=
  String.prefix sub s ||
  match s with
  | EmptyString => false
  | String _ s' => contains sub s'
  end.

(** Removal of a run of characters satisfying [p] at the left end, at
    the right end, and at both ends. *)
Fixpoint lstrip_by (p : ascii → bool) (s : string) : string :=
  match s with
  | EmptyString => EmptyString
  | String c s' => if p c then lstrip_by p s' else s
  end.

Fixpoint rstrip_by (p : ascii → bool) (s : string) : string :=
  match s with
  | EmptyString => EmptyString
  | String c s' =>
      match rstrip_by p s' with
      | EmptyString => if p c then EmptyString else String c EmptyString
      | r => String c r
      end
  end.

Definition strip_by (p : ascii → bool) (s : string) : string :=
  rstrip_by p (lstrip_by p s).

(** [str.isspace] on the code points below 256: TAB, LF, VT, FF, CR,
    FS, GS, RS, US, SPACE, NEL and NBSP. *)
Definition isspace (c : ascii) : bool :=
  let n := nat_of_ascii c in
  ((9 <=? n)%nat && (n <=? 13)%nat) || ((28 <=? n)%nat && (n <=? 32)%nat)
  || (n =? 133)%nat || (n =? 160)%nat.

(** [s.strip()] *)
Definition strip (s : string) : string := strip_by isspace s.

(** Every character of [s] satisfies [p]. *)
Fixpoint all_chars (p : ascii → bool) (s : string) : bool :=
  match s with
  | EmptyString => true
  | String c s' => p c && all_chars p s'
  end.

Fixpoint take (n : nat) (s : string) : string :=
  match n, s with
  | S n', String c s' => String c (take n' s')
  | _, _ => EmptyString
  end.

Fixpoint drop (n : nat) (s : string) : string :=
  match n, s with
  | S n', String _ s' => drop n' s'
  | _, _ => s
  end.

End Py.

(** ** The table [job_listings] (part1_setup.py, [create_table_query]) *)

(** One row.  [id] is the [SERIAL PRIMARY KEY] column (named [job_id]
    here, as the source names it when it passes one around); every other
    column is nullable, and [scraped_at] is filled by its default. *)
Record Row := mkRow {
  job_id : Z;
  job_title : option string;
  company_name : option string;
  location : option string;
  job_url : option string;
  salary_info : option string;
  job_description : option string;
  source_site : option string;
  scraped_at : Z
}.

Global Instance Row_eq_dec : EqDecision Row.
Proof. solve_decision. Defined.

Definition set_job_description (d : option string) (r : Row) : Row :=
  mkRow (job_id r) (job_title r) (company_name r) (location r) (job_url r)
        (salary_info r) d (source_site r) (scraped_at r).

(** Errors the server reports for the statements of the source. *)
Inductive db_error :=
  | StringDataRightTruncation (n : nat)   (* value too long for VARCHAR(n) *)
  | UniqueViolation (constraint : string)
  | InvalidRowCountInLimitClause.         (* LIMIT must not be negative *)

Global Instance db_error_eq_dec : EqDecision db_error.
Proof. solve_decision. Defined.

Module Pg.

Definition is_space (c : ascii) : bool := bool_decide (c = " "%char).

(** [trim(s)]: with no character list, PostgreSQL's [trim] removes
    spaces (U+0020) only, from both ends. *)
Definition trim (s : string) : string := Py.strip_by is_space s.

(** Assignment of a value to a [VARCHAR(n)] column: a longer string is
    an error unless the excess characters are all spaces, in which case
    it is cut to [n] characters. *)
Definition varchar (n : nat) (v : option string) : db_error + option string :=
  match v with
  | None => inr None
  | Some s =>
      if bool_decide (String.length s ≤ n)%nat then inr (Some s)
      else if Py.all_chars is_space (Py.drop n s) then inr (Some (Py.take n s))
      else inl (StringDataRightTruncation n)
  end.

(** The value list of one row of the [INSERT] of part2_scrape.py:
    (job_title, company_name, location, job_url, salary_info, source_site). *)
Definition values : Type :=
  option string * option string * option string *
  option string * option string * option string.

Definition url_of (v : values) : option string := v.1.1.2.

Definition coerce (v : values) : db_error + values :=
  let '(t, c, l, u, s, src) := v in
  match varchar 255 t, varchar 255 c, varchar 255 l, varchar 512 u, varchar 100 src with
  | inr t', inr c', inr l', inr u', inr src' => inr (t', c', l', u', s, src')
  | inl e, _, _, _, _ => inl e
  | _, inl e, _, _, _ => inl e
  | _, _, inl e, _, _ => inl e
  | _, _, _, inl e, _ => inl e
  | _, _, _, _, inl e => inl e
  end.

(** [job_url VARCHAR(512) UNIQUE]: a non-null url conflicts with an
    equal stored one; nulls never conflict. *)
Definition url_conflict (u : option string) (rows : list Row) : bool :=
  match u with
  | None => false
  | Some _ => bool_decide (u ∈ job_url <$> rows)
  end.

Inductive conflict_clause := NoConflictClause | OnConflictDoNothing.

(** State of one [INSERT] statement while it runs: the table, the
    sequence of the [id] column, and the number of rows inserted. *)
Definition insert_state : Type := list Row * Z * Z.

(** One proposed row.  The defaults are computed first ([nextval] for
    [id], the transaction's timestamp for [scraped_at]), so a row that
    is skipped on conflict has still drawn its sequence value. *)
Definition insert_row (oc : conflict_clause) (now : Z) (v : values)
    (st : insert_state) : db_error + insert_state :=
  let '(rows, id_seq, count) := st in
  match coerce v with
  | inl e => inl e
  | inr (t, c, l, u, s, src) =>
      if url_conflict u rows then
        match oc with
        | NoConflictClause => inl (UniqueViolation "job_listings_job_url_key")
        | OnConflictDoNothing => inr (rows, id_seq + 1, count)
        end
      else
        inr (rows ++ [mkRow id_seq t c l u s None src now], id_seq + 1, count + 1)
  end.

Global Arguments insert_row : simpl never.
Global Arguments coerce : simpl never.

(** [INSERT INTO job_listings (...) VALUES v1, ..., vn [ON CONFLICT
    (job_url) DO NOTHING]]: the rows are proposed in order; an error
    aborts the statement. *)
Fixpoint insert_values (oc : conflict_clause) (now : Z) (vs : list values)
    (st : insert_state) : db_error + insert_state :=
  match vs with
  | [] => inr st
  | v :: vs' =>
      match insert_row oc now v st with
      | inl e => inl e
      | inr st' => insert_values oc now vs' st'
      end
  end.

(** [job_description IS NULL OR trim(job_description) = ''] *)
Definition needs_description (r : Row) : bool :=
  match job_description r with
  | None => true
  | Some d => bool_decide (trim d = "")
  end.

Definition id_le (r1 r2 : Row) : Prop := job_id r1 ≤ job_id r2.

Global Instance id_le_dec : RelDecision id_le.
Proof. intros r1 r2. unfold id_le. apply _. Defined.

(** The columns [id, job_url] of a row. *)
Definition id_and_url (r : Row) : Z * option string := (job_id r, job_url r).

(** The query without its [LIMIT]: the rows the [WHERE] clause keeps,
    ordered by [id]. *)
Definition jobs_to_update (rows : list Row) : list (Z * option string) :=
  id_and_url <$> merge_sort id_le (filter (λ r, needs_description r = true) rows).

(** A description that is null or made of spaces (U+0020) only. *)
Definition null_or_spaces (r : Row) : bool :=
  match job_description r with
  | None => true
  | Some d => Py.all_chars is_space d
  end.

(** Text values that fit their [VARCHAR] columns as they are. *)
Definition fits (v : values) : Prop :=
  let '(t, c, l, u, s, src) := v in
  let len (x : option string) := String.length (default "" x) in
  (len t ≤ 255 ∧ len c ≤ 255 ∧ len l ≤ 255 ∧ len u ≤ 512 ∧ len src ≤ 100)%nat.

(** [SELECT id, job_url FROM job_listings WHERE job_description IS NULL
    OR trim(job_description) = '' ORDER BY id [LIMIT n]] *)
Definition select_jobs_to_update (limit : option Z) (rows : list Row)
    : db_error + list (Z * option string) :=
  let hits := jobs_to_update rows in
  match limit with
  | None => inr hits
  | Some n => if bool_decide (n < 0) then inl InvalidRowCountInLimitClause
              else inr (take (Z.to_nat n) hits)
  end.

(** [UPDATE job_listings SET job_description = d WHERE id = i] *)
Definition update_job_description (d : option string) (i : Z) (rows : list Row)
    : list Row :=
  (λ r, if bool_decide (job_id r = i) then set_job_description d r else r) <$> rows.

End Pg.

(** ** The psycopg2 connection *)

(** [committed] is the table as other sessions see it, [txn] the working
    copy of the open transaction, if one is open (psycopg2 opens one at
    the first statement), and [id_seq] the sequence behind [id SERIAL].
    Sequence values drawn by a statement stay drawn after a rollback. *)
Record Conn := mkConn {
  committed : list Row;
  txn : option (list Row);
  id_seq : Z
}.

(** The table as the connection sees it. *)
Definition view (c : Conn) : list Row := default (committed c) (txn c).

(** ** Exceptions, logging and the effect monad *)

Inductive exn :=
  | Psycopg2Error (e : db_error)
  | RequestException.

Inductive level := INFO | WARNING | ERROR.

Inductive log_arg :=
  | ArgStr (s : option string)
  | ArgInt (n : Z)
  | ArgExn (e : exn).

(** One logging call: the level, the text of the f-string with its
    replacement fields left as written, and the values of those fields. *)
Record log_record := mkLog {
  levelname : level;
  template : string;
  args : list log_arg
}.

Record World := mkWorld {
  conn : Conn;
  log : list log_record
}.

Inductive result (A : Type) :=
  | Ret (a : A)
  | Raise (e : exn).
Global Arguments Ret {A} a.
Global Arguments Raise {A} e.

Definition Eff (A : Type) : Type := World → result A * World.

Global Instance Eff_ret : MRet Eff := λ A a w, (Ret a, w).

Global Instance Eff_bind : MBind Eff := λ A B f m w,
  match m w with
  | (Ret a, w') => f a w'
  | (Raise e, w') => (Raise e, w')
  end.

Definition raise {A} (e : exn) : Eff A := λ w, (Raise e, w).

(** [try: body / except <handler's domain>: handler]: an exception the
    handler has no clause for propagates. *)
Definition try_except {A} (body : Eff A) (handler : exn → option (Eff A)) : Eff A :=
  λ w, match body w with
       | (Ret a, w') => (Ret a, w')
       | (Raise e, w') =>
           match handler e with
           | Some h => h w'
           | None => (Raise e, w')
           end
       end.

Definition logging (l : level) (t : string) (a : list log_arg) : Eff unit :=
  λ w, (Ret (), mkWorld (conn w) (log w ++ [mkLog l t a])).

(** [for x in xs: body x], with the loop variables threaded as [acc]. *)
Fixpoint for_each {A S} (xs : list A) (body : A → S → Eff S) (acc : S) : Eff S :=
  match xs with
  | [] => mret acc
  | x :: xs' => acc' ← body x acc; for_each xs' body acc'
  end.

Module Psycopg2.

Definition with_conn (c : Conn) (w : World) : World := mkWorld c (log w).

(** [conn.commit()] *)
Definition commit : Eff unit := λ w,
  (Ret (), with_conn (mkConn (view (conn w)) None (id_seq (conn w))) w).

(** [conn.rollback()] *)
Definition rollback : Eff unit := λ w,
  (Ret (), with_conn (mkConn (committed (conn w)) None (id_seq (conn w))) w).

(** [cursor.execute] of one [INSERT ... VALUES page ON CONFLICT (job_url)
    DO NOTHING]; the result is [cursor.rowcount] after the statement. *)
Definition execute_insert (now : Z) (page : list Pg.values) : Eff Z := λ w,
  let c := conn w in
  match Pg.insert_values Pg.OnConflictDoNothing now page (view c, id_seq c, 0) with
  | inl e => (Raise (Psycopg2Error e), with_conn (mkConn (committed c) (Some (view c)) (id_seq c)) w)
  | inr (rows', seq', n) => (Ret n, with_conn (mkConn (committed c) (Some rows') seq') w)
  end.

(** [psycopg2.extras._paginate]: consecutive pages of [page_size] items,
    the last one shorter when the items do not fill it.  [room] is the
    number of free places of the page being filled. *)
Fixpoint paginate_from {A} (page_size room : nat) (page seq : list A) : list (list A) :=
  match seq with
  | [] => match page with [] => [] | _ => [page] end
  | x :: seq' =>
      match room with
      | S (S room') => paginate_from page_size (S room') (page ++ [x]) seq'
      | _ => (page ++ [x]) :: paginate_from page_size page_size [] seq'
      end
  end.

Definition paginate {A} (page_size : nat) (seq : list A) : list (list A) :=
  paginate_from page_size page_size [] seq.

Fixpoint execute_pages (now : Z) (pages : list (list Pg.values)) (rowcount : Z) : Eff Z :=
  match pages with
  | [] => mret rowcount
  | page :: pages' => n ← execute_insert now page; execute_pages now pages' n
  end.

(** [execute_values(cursor, sql, argslist)], with its default
    [page_size=100]: one statement per page.  The result is
    [cursor.rowcount] afterwards, which is that of the last statement
    executed (-1 on a cursor that has executed none). *)
Definition execute_values (now : Z) (argslist : list Pg.values) : Eff Z :=
  execute_pages now (paginate 100 argslist) (-1).

(** The statements of the pages in sequence, as a function of the table:
    the table, the sequence and the row count of the last statement. *)
Fixpoint insert_pages (now : Z) (pages : list (list Pg.values)) (st : Pg.insert_state)
    : db_error + Pg.insert_state :=
  match pages with
  | [] => inr st
  | page :: pages' =>
      match Pg.insert_values Pg.OnConflictDoNothing now page (st.1.1, st.1.2, 0) with
      | inl e => inl e
      | inr st' => insert_pages now pages' st'
      end
  end.

(** [cursor.execute] of the [SELECT] of part3_scrape_JD.py. *)
Definition execute_select (limit : option Z) : Eff (list (Z * option string)) := λ w,
  let c := conn w in
  let w' := with_conn (mkConn (committed c) (Some (view c)) (id_seq c)) w in
  match Pg.select_jobs_to_update limit (view c) with
  | inl e => (Raise (Psycopg2Error e), w')
  | inr rs => (Ret rs, w')
  end.

(** [cursor.execute] of the [UPDATE] of part3_scrape_JD.py. *)
Definition execute_update (d : option string) (i : Z) : Eff unit := λ w,
  let c := conn w in
  (Ret (), with_conn (mkConn (committed c) (Some (Pg.update_job_description d i (view c))) (id_seq c)) w).

End Psycopg2.

(** ** part2_scrape.py *)

(** A job as the scraper builds it: a [dict] from field names to
    [Optional[str]] values. *)
Abbreviation Dict := (gmap string (option string)).

(** [j.get(k)]: a missing key reads as [None]. *)
Definition dict_get (j : Dict) (k : string) : option string := default None (j !! k).

Module Part2.

Module DatabaseManager.

Definition job_tuple (j : Dict) : Pg.values :=
  (dict_get j "job_title", dict_get j "company_name", dict_get j "location",
   dict_get j "job_url", dict_get j "salary_info", dict_get j "source_site").

(** The record [logger.error] writes for a database error [e]. *)
Definition bulk_insert_error_record (e : db_error) : log_record :=
  mkLog ERROR "Database bulk insert error: {e}" [ArgExn (Psycopg2Error e)].

(** [now] is the timestamp of the transaction the call runs in. *)
Definition bulk_insert_jobs (now : Z) (jobs : list Dict) : Eff Z :=
  if bool_decide (jobs = []) then mret 0 else
  let job_tuples := job_tuple <$> jobs in
  try_except
    (count ← Psycopg2.execute_values now job_tuples;
     _ ← Psycopg2.commit;
     mret count)
    (λ e, match e with
          | Psycopg2Error _ =>
              Some (_ ← logging ERROR "Database bulk insert error: {e}" [ArgExn e];
                    _ ← Psycopg2.rollback;
                    mret 0)
          | _ => None
          end).

End DatabaseManager.


(** The HTTP session: what [session.get(url, timeout=15)] followed by
    [raise_for_status()] and the parse of the body gives for a url. *)
Inductive http_result (Tag : Type) :=
  | Response (soup : Tag)
  | RequestFailed.
Global Arguments Response {Tag} soup.
Global Arguments RequestFailed {Tag}.

(** The calls the scraper makes on a BeautifulSoup tag.
    [find_all_href name t] stands for the [href] values of
    [t.find_all(name, href=True)], in document order. *)
Class Soup (Tag : Type) := {
  select : Tag → string → list Tag;
  select_one : Tag → string → option Tag;
  get_text : bool → Tag → string;
  find_all_href : string → Tag → list string
}.

Module JobScraper.
Section JobScraper.

Context {Tag : Type} `{!Soup Tag}.

(** [urllib.parse.urljoin] *)
Variable urljoin : string → string → string.

Definition base_url : string := "https://weworkremotely.com".

Definition _extract_text (soup_item : Tag) (selector : string) : option string :=
match select_one soup_item selector with
| Some element => Some (get_text true element)
| None => None
end.

Fixpoint first_salary (categories : list Tag) : option string :=
match categories with
| [] => None
| category :: rest =>
    let text := get_text false category in
    if Py.contains "$" text || Py.contains "USD" text
    then Some (Py.strip text)
    else first_salary rest
end.

Definition _find_salary (soup_item : Tag) : option string :=
match select_one soup_item "div.new-listing__categories" with
| None => None
| Some categories_div =>
    first_salary (select categories_div "p.new-listing__categories__category")
end.

Fixpoint first_job_link (all_links : list string) : option string :=
match all_links with
| [] => None
| link :: rest =>
    if Py.contains "/remote-jobs/" link then Some link else first_job_link rest
end.

Definition _find_job_link (soup_item : Tag) : option string :=
first_job_link (find_all_href "a" soup_item).

(** The body of the loop of [scrape_weworkremotely]: the dict appended
  to [all_jobs] for [item], or [None] when the item is passed over. *)
Definition scrape_item (item : Tag) : option Dict :=
let job_path := _find_job_link item in
if negb (Py.truthy job_path) then None else
let job_url := urljoin base_url (default "" job_path) in
let job_title := Py.or (_extract_text item "h4.new-listing__header__title")
                       (_extract_text item "span.title") in
let company := Py.or (_extract_text item "p.new-listing__company-name")
                     (_extract_text item "span.company") in
let location := Py.or (_extract_text item "p.new-listing__company-headquarters")
                      (_extract_text item "span.region") in
let salary := _find_salary item in
if Py.truthy job_title && Py.truthy company then
  Some (<["job_title" := job_title]>
       (<["company_name" := company]>
       (<["location" := Py.or location (Some "Remote")]>
       (<["job_url" := Some job_url]>
       (<["salary_info" := salary]>
       (<["source_site" := Some "WeWorkRemotely"]> ∅))))))
else None.

Definition session_get (session : string → http_result Tag) (url : string) : Eff Tag :=
match session url with
| Response soup => mret soup
| RequestFailed => raise RequestException
end.

Definition scrape_weworkremotely (session : string → http_result Tag)
  (url : string) : Eff (list Dict) :=
_ ← logging INFO "Scraping jobs from: {url}" [ArgStr (Some url)];
try_except
  (soup ← session_get session url;
   let job_listings := select soup "section#category-2 li" in
   _ ← logging INFO "Found {len(job_listings)} total job list items."
               [ArgInt (Z.of_nat (length job_listings))];
   mret (omap scrape_item job_listings))
  (λ e, match e with
        | RequestException =>
            Some (_ ← logging ERROR "Request to {url} failed: {e}"
                              [ArgStr (Some url); ArgExn e];
                  mret [])
        | _ => None
        end).

(** The values the loop gives [job_title], [company] and [location]. *)
Definition title_of (item : Tag) : option string :=
Py.or (_extract_text item "h4.new-listing__header__title") (_extract_text item "span.title").

Definition company_of (item : Tag) : option string :=
Py.or (_extract_text item "p.new-listing__company-name") (_extract_text item "span.company").

Definition location_of (item : Tag) : option string :=
Py.or (_extract_text item "p.new-listing__company-headquarters")
      (_extract_text item "span.region").

(** The list [scrape_weworkremotely] returns, as a function of what the
  session serves. *)
Definition harvest (session : string → http_result Tag) (url : string) : list Dict :=
match session url with
| Response soup => omap scrape_item (select soup "section#category-2 li")
| RequestFailed => []
end.

End JobScraper.
End JobScraper.

(** [with DatabaseManager(DB_CONFIG) as db: body]: a new session, which
    starts outside a transaction; closing the connection discards a
    transaction left open, also when [body] raised. *)
Definition with_DatabaseManager {A} (body : Eff A) : Eff A := λ w,
  let c := conn w in
  let w1 := mkWorld (mkConn (committed c) None (id_seq c))
                    (log w ++ [mkLog INFO "Database connection established." []]) in
  let '(r, w2) := body w1 in
  (r, mkWorld (mkConn (committed (conn w2)) None (id_seq (conn w2)))
              (log w2 ++ [mkLog INFO "Database connection closed." []])).

Definition target_url : string :=
  "https://weworkremotely.com/categories/remote-full-stack-programming-jobs".

(** [main]: the result is the pair of numbers of the printed summary
    (jobs found on the page, new jobs inserted), or [None] when [main]
    returns before the summary. *)
Definition main {Tag : Type} `{!Soup Tag} (urljoin : string → string → string)
    (session : string → http_result Tag) (now : Z) : Eff (option (nat * Z)) :=
  with_DatabaseManager
    (jobs_to_insert ← JobScraper.scrape_weworkremotely urljoin session target_url;
     if bool_decide (jobs_to_insert = []) then
       _ ← logging WARNING "No jobs were found." [];
       mret None
     else
       _ ← logging INFO "Attempting to insert {len(jobs_to_insert)} jobs into the database..."
                   [ArgInt (Z.of_nat (length jobs_to_insert))];
       inserted_count ← DatabaseManager.bulk_insert_jobs now jobs_to_insert;
       mret (Some (length jobs_to_insert, inserted_count))).

End Part2.

(** ** part3_scrape_JD.py *)

Module Part3.

Module DatabaseManager.

(** [limit] is an [int] or [None]; [if limit:] holds for a non-zero int. *)
Definition get_jobs_to_update (limit : option Z) : Eff (list (Z * option string)) :=
  let limit_clause :=
    match limit with
    | Some n => if bool_decide (n = 0) then None else Some n
    | None => None
    end in
  Psycopg2.execute_select limit_clause.

Definition update_description (job_id : Z) (description : string) : Eff unit :=
  _ ← Psycopg2.execute_update (Some description) job_id;
  Psycopg2.commit.

End DatabaseManager.

(** What the browser does with one page: [driver.get(url)] followed by
    the wait of up to 15 seconds for an element matching the selector. *)
Inductive page_outcome :=
  | ElementText (text : string)      (* the element appeared; its [.text] *)
  | TimeoutException                 (* the wait ran out *)
  | OtherException.                  (* any other exception of the driver *)

(** The browser session: the outcome of its [i]-th navigation, by url
    and selector. *)
Definition WebDriver : Type := nat → option string → string → page_outcome.

Definition scrape_full_description (driver : WebDriver) (i : nat)
    (url : option string) (selector : string) : Eff (option string) :=
  match driver i url selector with
  | ElementText text => mret (Some text)
  | TimeoutException =>
      _ ← logging WARNING "Timeout: Description element ('{selector}') not found on {url}"
                  [ArgStr (Some selector); ArgStr url];
      mret None
  | OtherException =>
      _ ← logging ERROR "An error occurred scraping description from {url}: {e}"
                  [ArgStr url];
      mret None
  end.

(** [try: body / finally: cleanup] *)
Definition try_finally {A} (body : Eff A) (cleanup : Eff unit) : Eff A := λ w,
  let '(r, w1) := body w in
  match cleanup w1 with
  | (Ret _, w2) => (r, w2)
  | (Raise e, w2) => (Raise e, w2)
  end.

(** [with DatabaseManager(DB_CONFIG) as db: body] *)
Definition with_DatabaseManager {A} (body : Eff A) : Eff A := λ w,
  let c := conn w in
  let '(r, w2) := body (mkWorld (mkConn (committed c) None (id_seq c)) (log w)) in
  (r, mkWorld (mkConn (committed (conn w2)) None (id_seq (conn w2))) (log w2)).

(** [enumerate(xs, start)] *)
Fixpoint enumerate {A} (start : nat) (xs : list A) : list (nat * A) :=
  match xs with
  | [] => []
  | x :: xs' => (start, x) :: enumerate (S start) xs'
  end.

Definition DESCRIPTION_SELECTOR : string := "div.lis-container__job__content__description".
Definition JOB_LIMIT : option Z := None.

(** The body of the loop of [main] for the [i]-th job. *)
Definition process_job (driver : WebDriver) (total : nat)
    (ij : nat * (Z * option string)) (updated_count : nat) : Eff nat :=
  let '(i, job) := ij in
  _ ← logging INFO "[{i}/{len(jobs_to_update)}] Processing Job ID: {job['id']}"
              [ArgInt (Z.of_nat i); ArgInt (Z.of_nat total); ArgInt (fst job)];
  description ← scrape_full_description driver i (snd job) DESCRIPTION_SELECTOR;
  if Py.truthy description then
    _ ← DatabaseManager.update_description (fst job) (default "" description);
    _ ← logging INFO "Successfully updated Job ID: {job['id']}" [ArgInt (fst job)];
    mret (S updated_count)
  else
    _ ← logging WARNING "Skipping update for Job ID: {job['id']} due to missing description."
                [ArgInt (fst job)];
    mret updated_count.

(** [main]: the result is the pair of numbers of the printed summary
    (jobs processed, successfully updated), or [None] when there was no
    work to do. *)
Definition main (driver : WebDriver) : Eff (option (nat * nat)) :=
  with_DatabaseManager
    (jobs_to_update ← DatabaseManager.get_jobs_to_update JOB_LIMIT;
     if bool_decide (jobs_to_update = []) then
       _ ← logging INFO "All jobs in the database already have a description. No work to do." [];
       mret None
     else
       _ ← logging INFO "Found {len(jobs_to_update)} jobs to process. Initializing scraper..."
                   [ArgInt (Z.of_nat (length jobs_to_update))];
       updated_count ←
         try_finally
           (for_each (enumerate 1 jobs_to_update)
                     (process_job driver (length jobs_to_update)) 0%nat)
           (logging INFO "Closing WebDriver..." []);
       mret (Some (length jobs_to_update, updated_count))).

(** What [scrape_full_description] returns for the [i]-th job. *)
Definition fetched (driver : WebDriver) (i : nat) (job : Z * option string)
    : option string :=
  match driver i (snd job) DESCRIPTION_SELECTOR with
  | ElementText text => Some text
  | TimeoutException | OtherException => None
  end.

(** The loop of [main] read as a function of the table: one row after
    the jobs [ijs] were processed, the table after them, and the number
    of updates made. *)
Definition backfill_step (driver : WebDriver) (ij : nat * (Z * option string))
    (r : Row) : Row :=
  if Py.truthy (fetched driver ij.1 ij.2) && bool_decide (job_id r = ij.2.1)
  then set_job_description (fetched driver ij.1 ij.2) r
  else r.

Definition backfill_row (driver : WebDriver) (ijs : list (nat * (Z * option string)))
    (r : Row) : Row :=
  foldl (λ r ij, backfill_step driver ij r) r ijs.

Definition backfill_rows (driver : WebDriver) (ijs : list (nat * (Z * option string)))
    (rows : list Row) : list Row :=
  backfill_row driver ijs <$> rows.

Definition backfill_count (driver : WebDriver) (ijs : list (nat * (Z * option string)))
    : nat :=
  length (filter (λ ij, Py.truthy (fetched driver ij.1 ij.2) = true) ijs).

End Part3.

(** ** The system as a whole *)

(** Two rows that differ at most in [job_description]. *)
Definition same_but_description (r r' : Row) : Prop :=
  job_id r' = job_id r ∧ job_title r' = job_title r ∧
  company_name r' = company_name r ∧ location r' = location r ∧
  job_url r' = job_url r ∧ salary_info r' = salary_info r ∧
  source_site r' = source_site r ∧ scraped_at r' = scraped_at r.

(** The database after part1_setup.py: the table exists and is empty. *)
Definition after_setup : World := mkWorld (mkConn [] None 1) [].

(** The states the system reaches: the setup, then runs of phase 1 and
    of phase 2 in any order, against any page and any browser. *)
Inductive reachable : World → Prop :=
  | reachable_setup : reachable after_setup
  | reachable_phase1 (Tag : Type) (S : Part2.Soup Tag)
      (urljoin : string → string → string)
      (session : string → Part2.http_result Tag) (now : Z) (w : World) :
      reachable w → reachable (Part2.main urljoin session now w).2
  | reachable_phase2 (driver : Part3.WebDriver) (w : World) :
      reachable w → reachable (Part3.main driver w).2.

(** The constraint [job_url ... UNIQUE] on a table none of whose urls is
    null: no url occurs in two rows. *)
Definition urls_unique (rows : list Row) : Prop :=
  NoDup (job_url <$> rows) ∧ Forall (λ r, is_Some (job_url r)) rows.

(** The completeness predicate in the words of the specification: a
    description that is null, or empty once whitespace is trimmed from it
    (whitespace as [str.strip] has it). *)
Definition spec_incomplete (r : Row) : bool :=
  match job_description r with
  | None => true
  | Some d => bool_decide (Py.strip d = "")
  end.

(** Every text of a row fits the [VARCHAR] column it is stored in. *)
Definition within_limits (r : Row) : Prop :=
  Pg.fits (job_title r, company_name r, location r, job_url r, salary_info r, source_site r).

(** Every [id] of the table was drawn from the sequence, and no two rows
    have the same. *)
Definition ids_fresh (c : Conn) : Prop :=
  NoDup (job_id <$> committed c) ∧ Forall (λ r, job_id r < id_seq c) (committed c).

(** A row as an [INSERT] at time [now] makes it, with an id drawn from
    the sequence between [lo] and [hi]. *)
Definition new_row (now lo hi : Z) (r : Row) : Prop :=
  job_description r = None ∧ scraped_at r = now ∧ lo ≤ job_id r < hi ∧ within_limits r.

(** ** part1_setup.py *)

Module Part1.

Definition DB_TO_CREATE : string := "internship_assessment".

(** The table [job_listings] of a database: its rows and the sequence of
    its [id] column. *)
Definition Table : Type := list Row * Z.

(** The server as the script meets it: whether it lets the configured
    user in, whether that user may create databases, and the databases
    it has, each with its table [job_listings] when that exists. *)
Record Server := mkServer {
  accepts_login : bool;
  may_create_database : bool;
  databases : gmap string (option Table)
}.

(** The [psycopg2.Error]s of the script. *)
Inductive setup_error := ConnectionFailed | InsufficientPrivilege.

Inductive exit_status := Completed | Exit (code : Z).

(** The first [try] block: connect to the default database, look the
    target up in [pg_database], and create it when it is not there.  The
    connection is in autocommit mode, so a database created stays. *)
Definition ensure_database (s : Server) : setup_error + Server :=
  if negb (accepts_login s) then inl ConnectionFailed
  else match databases s !! DB_TO_CREATE with
       | Some _ => inr s
       | None =>
           if may_create_database s
           then inr (mkServer (accepts_login s) (may_create_database s)
                              (<[DB_TO_CREATE := None]> (databases s)))
           else inl InsufficientPrivilege
       end.

(** The second [try] block: connect to the target database and run
    [CREATE TABLE IF NOT EXISTS job_listings (...)], which makes an empty
    table with a new sequence, or nothing when the table exists. *)
Definition ensure_table (s : Server) : setup_error + Server :=
  if negb (accepts_login s) then inl ConnectionFailed
  else match databases s !! DB_TO_CREATE with
       | None => inl ConnectionFailed
       | Some (Some _) => inr s
       | Some None =>
           inr (mkServer (accepts_login s) (may_create_database s)
                         (<[DB_TO_CREATE := Some ([], 1)]> (databases s)))
       end.

(** The script: each block ends the process with [sys.exit(1)] on a
    [psycopg2.Error]. *)
Definition setup (s : Server) : exit_status * Server :=
  match ensure_database s with
  | inl _ => (Exit 1, s)
  | inr s1 =>
      match ensure_table s1 with
      | inl _ => (Exit 1, s1)
      | inr s2 => (Completed, s2)
      end
  end.

End Part1.

(** ** A document model implementing [Soup]

    A parsed document as a tree of elements and text nodes, with the
    part of CSS selection the source uses: compound selectors [name],
    [name.class] and [name#id], joined by the descendant combinator. *)

Module Html.

#[local] Set Warnings "-register-all".
Inductive node :=
  | Element (name : string) (attrs : list (string * string)) (contents : list node)
  | NavigableString (text : string).

Inductive qualifier := AnyElement | ByClass (k : string) | ById (i : string).

Record compound := mkCompound { sel_name : string; sel_qual : qualifier }.

Fixpoint parse_compound (s : string) : compound :=
  match s with
  | EmptyString => mkCompound "" AnyElement
  | String c s' =>
      if bool_decide (c = "."%char) then mkCompound "" (ByClass s')
      else if bool_decide (c = "#"%char) then mkCompound "" (ById s')
      else let r := parse_compound s' in mkCompound (String c (sel_name r)) (sel_qual r)
  end.

Definition parse_selector (s : string) : list compound :=
  parse_compound <$> String.words s.

Fixpoint attr (k : string) (attrs : list (string * string)) : option string :=
  match attrs with
  | [] => None
  | (k', v) :: rest => if bool_decide (k' = k) then Some v else attr k rest
  end.

Definition matches (c : compound) (n : node) : bool :=
  match n with
  | NavigableString _ => false
  | Element name attrs _ =>
      (bool_decide (sel_name c = "") || bool_decide (sel_name c = name)) &&
      match sel_qual c with
      | AnyElement => true
      | ByClass k => bool_decide (k ∈ String.words (default "" (attr "class" attrs)))
      | ById i => bool_decide (attr "id" attrs = Some i)
      end
  end.

(** The nodes at or below [n] that match the last compound of [todo],
    in document order, when the compounds before it are matched, in
    order, by ancestors at or below [n]. *)
Fixpoint select_from (todo : list compound) (n : node) : list node :=
  match n with
  | NavigableString _ => []
  | Element _ _ contents =>
      match todo with
      | [] => []
      | [c] => (if matches c n then [n] else []) ++
               flat_map (select_from [c]) contents
      | c :: rest =>
          flat_map (select_from (if matches c n then rest else todo)) contents
      end
  end.

Definition contents_of (n : node) : list node :=
  match n with
  | Element _ _ contents => contents
  | NavigableString _ => []
  end.

Definition select (n : node) (selector : string) : list node :=
  flat_map (select_from (parse_selector selector)) (contents_of n).

Definition select_one (n : node) (selector : string) : option node :=
  head (select n selector).

(** The text nodes below [n], in document order. *)
Fixpoint strings (n : node) : list string :=
  match n with
  | NavigableString text => [text]
  | Element _ _ contents => flat_map strings contents
  end.

(** [get_text(strip=...)]: with [strip], each piece is stripped and the
    empty ones are left out. *)
Definition get_text (strip : bool) (n : node) : string :=
  String.concat ""
    (if strip
     then filter (λ s, s ≠ "") (Py.strip <$> strings n)
     else strings n).

Fixpoint descendants (n : node) : list node :=
  match n with
  | NavigableString _ => []
  | Element _ _ contents => flat_map (λ k, k :: descendants k) contents
  end.

Definition href_of (name : string) (n : node) : option string :=
  match n with
  | Element name' attrs _ => if bool_decide (name' = name) then attr "href" attrs else None
  | NavigableString _ => None
  end.

Definition find_all_href (name : string) (n : node) : list string :=
  omap (href_of name) (descendants n).

Global Instance node_soup : Part2.Soup node := {|
  Part2.select := select;
  Part2.select_one := select_one;
  Part2.get_text := get_text;
  Part2.find_all_href := find_all_href
|}.

(** [urljoin] on a base that is a bare origin: a path from the root is
    appended, a url with a scheme replaces the base. *)
Definition urljoin (base url : string) : string :=
  if String.prefix "/" url then base +:+ url
  else if Py.contains "://" url then url
  else base +:+ "/" +:+ url.

End Html.

(** ** A sample listing page

    Three list items: [item_A] in the current markup, [item_B] without a
    link to a job page, [item_C] in the legacy markup only and without a
    region. *)

Module Sample.
Import Html.

Definition txt (name cls text : string) : node :=
  Element name [("class", cls)] [NavigableString text].

Definition item_A : node :=
  Element "li" [("class", "new-listing-container feature")]
    [Element "a" [("href", "/company/acme")] [NavigableString "Acme"];
     Element "a" [("href", "/remote-jobs/acme-senior-engineer")]
       [txt "h4" "new-listing__header__title" " Senior Engineer ";
        txt "p" "new-listing__company-name" "Acme";
        txt "p" "new-listing__company-headquarters" "Berlin";
        Element "div" [("class", "new-listing__categories")]
          [txt "p" "new-listing__categories__category" "Full-Time";
           txt "p" "new-listing__categories__category" " $100,000 or more USD "]]].

Definition item_B : node :=
  Element "li" [("class", "view-all")]
    [Element "a" [("href", "/categories/remote-full-stack-programming-jobs")]
       [txt "span" "title" "View all"; txt "span" "company" "Nobody"]].

Definition item_C : node :=
  Element "li" []
    [Element "a" [("href", "/remote-jobs/initech-developer")]
       [txt "span" "company" "Initech";
        txt "span" "title" "Developer"]].

Definition page : node :=
  Element "html" []
    [Element "body" []
       [Element "section" [("id", "category-2"); ("class", "jobs")]
          [Element "ul" [] [item_A; item_B; item_C]]]].

Definition session (url : string) : Part2.http_result node := Part2.Response page.

Definition empty_db : World := mkWorld (mkConn [] None 1) [].

(** Candidates with pairwise different urls. *)
Definition digit (n : nat) : ascii := ascii_of_nat (48 + n `mod` 10).

Definition numbered_job (i : nat) : Dict :=
  <["job_title" := Some "Engineer"]>
  (<["company_name" := Some "Acme"]>
  (<["location" := Some "Remote"]>
  (<["job_url" := Some ("https://weworkremotely.com/remote-jobs/job-" +:+
                        String (digit (i / 100)) (String (digit (i / 10))
                          (String (digit i) EmptyString)))]>
  (<["salary_info" := None]>
  (<["source_site" := Some "WeWorkRemotely"]> ∅))))).

Definition numbered_jobs (n : nat) : list Dict := numbered_job <$> seq 0 n.

(** A table for phase 2: five rows without a description (ids 1, 2, 3,
    5, 6; two of them with an empty or all-space text) and one with. *)
Definition job_row (i : Z) (d : option string) : Row :=
  mkRow i (Some "Engineer") (Some "Acme") (Some "Remote")
        (Some ("https://weworkremotely.com/remote-jobs/job-" +:+
               String (digit (Z.to_nat i)) EmptyString))
        None d (Some "WeWorkRemotely") 0.

Definition backlog : World :=
  mkWorld (mkConn [job_row 1 None; job_row 2 (Some ""); job_row 3 (Some "   ");
                   job_row 4 (Some "Remote position."); job_row 5 None; job_row 6 None]
                  None 7) [].

(** A browser whose third navigation times out. *)
Definition driver : Part3.WebDriver := λ i url selector,
  if bool_decide (i = 3%nat) then Part3.TimeoutException
  else Part3.ElementText "Full description.".

(** A row whose description is a single TAB. *)
Definition tab_row : Row := job_row 1 (Some (String "009"%char EmptyString)).

Definition tab_only : World := mkWorld (mkConn [tab_row] None 2) [].

(** A server without the target database, and one that has it with a
    table of rows. *)
Definition new_server : Part1.Server := Part1.mkServer true true ∅.

Definition used_server : Part1.Server :=
  Part1.mkServer true false
    {[ Part1.DB_TO_CREATE := Some ([job_row 1 (Some "Remote position."); job_row 2 None], 3) ]}.

(** A session whose request fails. *)
Definition offline (url : string) : Part2.http_result node := Part2.RequestFailed.

(** A candidate without the key ['job_url']. *)
Definition no_url_job : Dict :=
  <["job_title" := Some "Engineer"]> (<["company_name" := Some "Acme"]> ∅).

(** A browser that finds a description on every page. *)
Definition good_driver : Part3.WebDriver := λ i url selector,
  Part3.ElementText "Full description.".

Fixpoint repeat_char (c : ascii) (n : nat) : string :=
  match n with
  | O => EmptyString
  | S n' => String c (repeat_char c n')
  end.

(** A candidate whose title does not fit [VARCHAR(255)]. *)
Definition overlong_job : Dict :=
  <["job_title" := Some (repeat_char "x" 256)]> (numbered_job 999).

End Sample.

(** * Properties *)

(** Equal constructors applied to arithmetically equal arguments. *)
Ltac congr_lia := repeat first [ done | lia | progress f_equal ].

(** ** Strings *)

Section strings.
Variable p : ascii → bool.

Lemma lstrip_by_all_chars s :
  Py.all_chars p (Py.lstrip_by p s) = true ↔ Py.all_chars p s = true.
Proof.
  induction s as [|c s IH]; simpl; [done|].
  destruct (p c) eqn:Hc; simpl; [done|]. by rewrite Hc.
Qed.

Lemma rstrip_by_empty s :
  Py.rstrip_by p s = "" ↔ Py.all_chars p s = true.
Proof.
  induction s as [|c s IH]; simpl; [done|].
  destruct (Py.rstrip_by p s) as [|c' r] eqn:Hr.
  - destruct (p c); simpl; [tauto|]. split; discriminate.
  - split; [discriminate|]. intros [_ Hs]%andb_true_iff.
    apply IH in Hs. discriminate.
Qed.

Lemma strip_by_empty s :
  Py.strip_by p s = "" ↔ Py.all_chars p s = true.
Proof. unfold Py.strip_by. by rewrite rstrip_by_empty, lstrip_by_all_chars. Qed.
End strings.

Lemma take_length_le n s : (String.length (Py.take n s) ≤ n)%nat.
Proof.
  revert s. induction n as [|n IH]; intros [|c s]; simpl; try lia.
  specialize (IH s). lia.
Qed.

(** ** The [INSERT] statement *)

Section insert.
Import Pg.
Variable now : Z.

Lemma insert_row_count oc v rows s n :
  insert_row oc now v (rows, s, n) =
    match insert_row oc now v (rows, s, 0) with
    | inl e => inl e
    | inr (rows', s', k) => inr (rows', s', n + k)
    end.
Proof.
  unfold insert_row. destruct (coerce v) as [e|[[[[[t c] l] u] sal] src]]; [done|].
  destruct (url_conflict u rows), oc; try done; congr_lia.
Qed.

Lemma insert_values_count oc vs rows s n :
  insert_values oc now vs (rows, s, n) =
    match insert_values oc now vs (rows, s, 0) with
    | inl e => inl e
    | inr (rows', s', k) => inr (rows', s', n + k)
    end.
Proof.
  revert rows s n. induction vs as [|v vs IH]; intros rows s n; simpl.
  { congr_lia. }
  rewrite (insert_row_count _ _ _ _ n).
  destruct (insert_row oc now v (rows, s, 0)) as [e|[[rows' s'] k]]; [done|].
  rewrite (IH rows' s' (n + k)), (IH rows' s' k).
  destruct (insert_values oc now vs (rows', s', 0)) as [e|[[rows'' s''] k']]; [done|].
  congr_lia.
Qed.

Lemma insert_values_app oc vs1 vs2 st :
  insert_values oc now (vs1 ++ vs2) st =
    match insert_values oc now vs1 st with
    | inl e => inl e
    | inr st' => insert_values oc now vs2 st'
    end.
Proof.
  revert st. induction vs1 as [|v vs1 IH]; intros st; simpl; [done|].
  destruct (insert_row oc now v st); [done|]. apply IH.
Qed.

(** A statement that succeeds appends rows to the table, as many as
    it counts, and draws one sequence value per proposed row. *)
Lemma insert_values_ok oc vs rows s n rows' s' n' :
  insert_values oc now vs (rows, s, n) = inr (rows', s', n') →
  ∃ new, rows' = rows ++ new ∧ n' = n + Z.of_nat (length new) ∧ s' = s + Z.of_nat (length vs).
Proof.
  revert rows s n. induction vs as [|v vs IH]; intros rows s n; simpl.
  { intros [= <- <- <-]. exists []. rewrite app_nil_r. simpl. split_and!; [done|lia..]. }
  unfold insert_row.
  destruct (coerce v) as [e|[[[[[t c] l] u] sal] src]]; [done|].
  destruct (url_conflict u rows).
  - destruct oc; [done|]. intros (new & -> & -> & ->)%IH.
    exists new. split_and!; [done|lia..].
  - intros (new & -> & -> & ->)%IH.
    eexists (_ :: new). rewrite <-app_assoc. simpl. split_and!; [done|lia..].
Qed.

(** With [ON CONFLICT DO NOTHING] the only errors are those of the
    column types, so whether a statement fails depends on the proposed
    values alone. *)
Lemma insert_values_error vs st :
  match insert_values OnConflictDoNothing now vs st with
  | inl e => ∃ v, v ∈ vs ∧ coerce v = inl e
  | inr _ => Forall (λ v, ∃ v', coerce v = inr v') vs
  end.
Proof.
  revert st. induction vs as [|v vs IH]; intros [[rows s] n]; simpl; [done|].
  unfold insert_row. destruct (coerce v) as [e|[[[[[t c] l] u] sal] src]] eqn:Hv.
  { exists v. split; [left|done]. }
  destruct (url_conflict u rows);
    (match goal with |- context [insert_values _ _ _ ?st] => specialize (IH st);
       destruct (insert_values OnConflictDoNothing now vs st) end);
    first [ destruct IH as (v' & ? & ?); exists v'; split; [by right|done]
          | constructor; eauto ].
Qed.

Lemma insert_values_error_free vs st :
  Forall (λ v, ∃ v', coerce v = inr v') vs →
  ∃ r, insert_values OnConflictDoNothing now vs st = inr r.
Proof.
  intros Hvs. pose proof (insert_values_error vs st) as H.
  destruct (insert_values OnConflictDoNothing now vs st) as [e|r]; [|by eexists].
  destruct H as (v & Hv & He). rewrite Forall_forall in Hvs.
  destruct (Hvs _ Hv) as [? ?]. congruence.
Qed.

(** Proposed rows whose (coerced) urls are all stored already leave the
    table as it is and count nothing. *)
Lemma insert_values_all_conflict vs rows s n :
  Forall (λ v, ∃ v', coerce v = inr v' ∧ is_Some (url_of v') ∧
                      url_of v' ∈ job_url <$> rows) vs →
  insert_values OnConflictDoNothing now vs (rows, s, n) = inr (rows, s + Z.of_nat (length vs), n).
Proof.
  revert s. induction vs as [|v vs IH]; intros s Hvs; simpl.
  { congr_lia. }
  apply Forall_cons in Hvs as [(v' & Hv & [u Hu] & Hin) Hvs].
  unfold insert_row. rewrite Hv.
  destruct v' as [[[[[t c] l] u'] sal] src]. unfold url_of in *; simpl in *. subst u'.
  unfold url_conflict. rewrite bool_decide_eq_true_2 by done.
  rewrite IH by done. congr_lia.
Qed.

(** After a successful statement every proposed non-null url is stored. *)
Lemma insert_values_urls_stored vs rows s n rows' s' n' :
  insert_values OnConflictDoNothing now vs (rows, s, n) = inr (rows', s', n') →
  Forall (λ v, ∃ v', coerce v = inr v' ∧
                      (is_Some (url_of v') → url_of v' ∈ job_url <$> rows')) vs.
Proof.
  revert rows s n. induction vs as [|v vs IH]; intros rows s n; simpl; [done|].
  unfold insert_row.
  destruct (coerce v) as [e|[[[[[t c] l] u] sal] src]] eqn:Hv; [done|].
  destruct (url_conflict u rows) eqn:Hc; intros Hrun.
  - pose proof Hrun as (new & -> & _)%insert_values_ok.
    constructor; [|by eapply IH].
    eexists. split; [done|]. unfold url_of; simpl. intros _.
    unfold url_conflict in Hc. destruct u; [|done].
    apply bool_decide_eq_true in Hc. rewrite fmap_app. apply elem_of_app. by left.
  - pose proof Hrun as (new & -> & _)%insert_values_ok.
    constructor; [|by eapply IH].
    eexists. split; [done|]. unfold url_of; simpl. intros _.
    rewrite !fmap_app. simpl. apply elem_of_app. left. apply elem_of_app. right. left.
Qed.

End insert.

(** ** Pages *)

Section paginate.
Context {A : Type}.
Implicit Types page seq : list A.

Lemma paginate_from_concat page_size room page seq :
  concat (Psycopg2.paginate_from page_size room page seq) = page ++ seq.
Proof.
  revert room page. induction seq as [|x seq IH]; intros room page; simpl.
  { destruct page; simpl; by rewrite ?app_nil_r. }
  destruct room as [|[|room]]; simpl; rewrite IH; by rewrite <-?app_assoc.
Qed.

Lemma paginate_concat page_size seq :
  concat (Psycopg2.paginate page_size seq) = seq.
Proof. apply paginate_from_concat. Qed.

Lemma paginate_nonempty page_size seq :
  seq ≠ [] → Psycopg2.paginate page_size seq ≠ [].
Proof.
  intros Hseq Hp. pose proof (paginate_concat page_size seq) as Hc.
  rewrite Hp in Hc. by destruct seq.
Qed.

(** Up to [page_size] items make one page. *)
Lemma paginate_from_single page_size room page seq :
  (1 ≤ room)%nat → (length seq ≤ room)%nat → page ++ seq ≠ [] →
  Psycopg2.paginate_from page_size room page seq = [page ++ seq].
Proof.
  revert room page. induction seq as [|x seq IH]; intros room page Hroom Hlen Hne; simpl in *.
  { rewrite app_nil_r in *. by destruct page. }
  destruct room as [|[|room]]; [lia| |].
  - destruct seq; simpl in *; [done|lia].
  - rewrite IH; [by rewrite <-app_assoc|lia|lia|]. by destruct page.
Qed.

Lemma paginate_single page_size seq :
  seq ≠ [] → (length seq ≤ page_size)%nat →
  Psycopg2.paginate page_size seq = [seq].
Proof.
  intros Hne Hlen. unfold Psycopg2.paginate.
  rewrite paginate_from_single; [done|..|done]; [|done].
  destruct seq; simpl in *; [done|lia].
Qed.
End paginate.

(** ** [execute_values] and [bulk_insert_jobs] *)

Ltac eff_unfold :=
  unfold mbind, mret, Eff_bind, Eff_ret, try_except, raise, logging,
    Psycopg2.commit, Psycopg2.rollback, Psycopg2.execute_insert,
    Psycopg2.execute_select, Psycopg2.execute_update, Psycopg2.with_conn in *.

Section execute_values.
Import Pg.
Variable now : Z.
Local Abbreviation insert_pages := (Psycopg2.insert_pages now).

Lemma execute_pages_cons page pages rc w :
  Psycopg2.execute_pages now (page :: pages) rc w =
    match insert_values OnConflictDoNothing now page (view (conn w), id_seq (conn w), 0) with
    | inl e => (Raise (Psycopg2Error e),
                mkWorld (mkConn (committed (conn w)) (Some (view (conn w))) (id_seq (conn w)))
                        (log w))
    | inr (rows', s', n) =>
        Psycopg2.execute_pages now pages n
          (mkWorld (mkConn (committed (conn w)) (Some rows') s') (log w))
    end.
Proof.
  cbn [Psycopg2.execute_pages]. eff_unfold.
  by destruct (insert_values _ _ page _) as [e|[[rows' s'] n]].
Qed.

Lemma execute_pages_ok pages rc w rows' s' n :
  insert_pages pages (view (conn w), id_seq (conn w), rc) = inr (rows', s', n) →
  pages ≠ [] →
  Psycopg2.execute_pages now pages rc w =
    (Ret n, mkWorld (mkConn (committed (conn w)) (Some rows') s') (log w)).
Proof.
  revert rc w. induction pages as [|page pages IH]; intros rc w Hrun Hne; [done|].
  rewrite execute_pages_cons. cbn [Psycopg2.insert_pages fst snd] in Hrun.
  destruct (insert_values _ _ page _) as [e|[[rows1 s1] n1]]; [done|].
  destruct pages as [|page' pages].
  { cbn in *. by simplify_eq. }
  by rewrite (IH n1 (mkWorld (mkConn (committed (conn w)) (Some rows1) s1) (log w))).
Qed.

Lemma execute_pages_err pages rc w e :
  insert_pages pages (view (conn w), id_seq (conn w), rc) = inl e →
  ∃ t s, Psycopg2.execute_pages now pages rc w =
    (Raise (Psycopg2Error e), mkWorld (mkConn (committed (conn w)) t s) (log w)).
Proof.
  revert rc w. induction pages as [|page pages IH]; intros rc w Hrun; [done|].
  rewrite execute_pages_cons. cbn [Psycopg2.insert_pages fst snd] in Hrun.
  destruct (insert_values _ _ page _) as [e'|[[rows1 s1] n1]].
  { simplify_eq. by eexists _, _. }
  destruct (IH n1 (mkWorld (mkConn (committed (conn w)) (Some rows1) s1) (log w)) Hrun)
    as (t & s & ->). by eexists _, _.
Qed.

(** [execute_values] raises nothing but [psycopg2.Error]. *)
Lemma execute_pages_raise pages rc w e w' :
  Psycopg2.execute_pages now pages rc w = (Raise e, w') →
  ∃ err t s, e = Psycopg2Error err ∧
    insert_pages pages (view (conn w), id_seq (conn w), rc) = inl err ∧
    w' = mkWorld (mkConn (committed (conn w)) t s) (log w).
Proof.
  intros Hrun.
  destruct (insert_pages pages (view (conn w), id_seq (conn w), rc))
    as [err|[[rows' s'] n]] eqn:Hp.
  - destruct (execute_pages_err _ _ _ _ Hp) as (t & s & Hr).
    rewrite Hr in Hrun. simplify_eq. by eexists _, _, _.
  - destruct pages; [done|]. erewrite execute_pages_ok in Hrun; done.
Qed.

(** The pages together are one pass over all the value lists, except
    for the count, which restarts with every page. *)
Lemma insert_pages_concat pages rows s rc :
  match insert_pages pages (rows, s, rc),
        insert_values OnConflictDoNothing now (concat pages) (rows, s, 0) with
  | inl e, inl e' => e = e'
  | inr (rows1, s1, _), inr (rows2, s2, _) => rows1 = rows2 ∧ s1 = s2
  | _, _ => False
  end.
Proof.
  revert rows s rc. induction pages as [|page pages IH]; intros rows s rc; simpl; [done|].
  rewrite insert_values_app.
  destruct (insert_values _ _ page _) as [e|[[rows1 s1] n1]]; [done|].
  specialize (IH rows1 s1 n1). rewrite (insert_values_count _ _ _ _ _ n1).
  destruct (insert_pages pages _) as [e|[[rows2 s2] n2]],
           (insert_values _ _ (concat pages) _) as [e'|[[rows3 s3] n3]]; done.
Qed.

(** What [bulk_insert_jobs] does with a non-empty batch, by the outcome
    of its statements. *)
Lemma bulk_insert_jobs_run jobs w :
  jobs ≠ [] →
  match insert_pages (Psycopg2.paginate 100 (Part2.DatabaseManager.job_tuple <$> jobs))
                     (view (conn w), id_seq (conn w), -1) with
  | inr (rows', s', n) =>
      Part2.DatabaseManager.bulk_insert_jobs now jobs w =
        (Ret n, mkWorld (mkConn rows' None s') (log w))
  | inl e =>
      ∃ s', Part2.DatabaseManager.bulk_insert_jobs now jobs w =
        (Ret 0, mkWorld (mkConn (committed (conn w)) None s')
                        (log w ++ [Part2.DatabaseManager.bulk_insert_error_record e]))
  end.
Proof.
  intros Hne. unfold Part2.DatabaseManager.bulk_insert_jobs, Psycopg2.execute_values.
  rewrite bool_decide_eq_false_2 by done.
  destruct (insert_pages _ _) as [e|[[rows' s'] n]] eqn:Hp.
  - destruct (execute_pages_err _ _ _ _ Hp) as (t & s & Hr).
    exists s. eff_unfold. by rewrite Hr.
  - eff_unfold. erewrite execute_pages_ok; [done..|].
    apply paginate_nonempty. by destruct jobs.
Qed.

End execute_values.

(** Up to 100 candidates go to the server as one statement, and then the
    count returned is the number of rows the call added. *)
Lemma bulk_insert_jobs_single_page now (jobs : list Dict) w :
  (length jobs ≤ 100)%nat → txn (conn w) = None →
  ∃ n w' new,
    Part2.DatabaseManager.bulk_insert_jobs now jobs w = (Ret n, w') ∧
    committed (conn w') = committed (conn w) ++ new ∧
    n = Z.of_nat (length new).
Proof.
  intros Hlen Htxn. destruct (decide (jobs = [])) as [->|Hne].
  { exists 0, w, []. by rewrite app_nil_r. }
  pose proof (bulk_insert_jobs_run now jobs w Hne) as Hrun.
  rewrite paginate_single in Hrun; [|by destruct jobs|by rewrite length_fmap].
  cbn [Psycopg2.insert_pages fst snd] in Hrun. unfold view in Hrun. rewrite Htxn in Hrun. simpl in Hrun.
  destruct (Pg.insert_values _ _ _ _) as [e|[[rows' s'] n]] eqn:Hins.
  - destruct Hrun as [s' ->]. eexists 0, _, []. by rewrite app_nil_r.
  - apply insert_values_ok in Hins as (new & -> & -> & ->).
    eexists _, _, new. split_and!; [done..|lia].
Qed.

(** The scenario of the specification: two fresh candidates, an empty
    table. *)
Example bulk_insert_two_fresh :
  (Part2.DatabaseManager.bulk_insert_jobs 0 (Sample.numbered_jobs 2) Sample.empty_db).1 = Ret 2.
Proof. reflexivity. Qed.

(** C1 (the count returned by [bulk_insert_jobs]; the code falls short of
    the claim).  A batch of 101 candidates with new, pairwise different
    urls, inserted into an empty table, adds 101 rows, and the call
    returns 1: [execute_values] sends the batch in pages of 100, and
    [cursor.rowcount] is the count of the last page. *)
Theorem bulk_insert_jobs_returns_last_page_count :
  let run := Part2.DatabaseManager.bulk_insert_jobs 0 (Sample.numbered_jobs 101)
               Sample.empty_db in
  run.1 = Ret 1 ∧ length (committed (conn run.2)) = 101%nat ∧
  NoDup (job_url <$> committed (conn run.2)) ∧ log run.2 = [].
Proof.
  split_and!; [by vm_compute..| |by vm_compute].
  apply (bool_decide_unpack _). by vm_compute.
Qed.

(** C6 (bulk insertion absorbs database errors and is atomic).  An empty
    batch returns 0 and leaves the connection as it was, no statement
    run and no transaction opened.  The call never raises.  When a
    statement of the batch raises a database error, the call returns 0,
    the committed table is the one before the call (also the rows of the
    pages that had succeeded are gone), no transaction stays open, and
    the log has gained the error record. *)
Theorem bulk_insert_jobs_absorbs_errors now (jobs : list Dict) w :
  (jobs = [] → Part2.DatabaseManager.bulk_insert_jobs now jobs w = (Ret 0, w)) ∧
  (∃ n w', Part2.DatabaseManager.bulk_insert_jobs now jobs w = (Ret n, w')) ∧
  (∀ e w1, jobs ≠ [] →
     Psycopg2.execute_values now (Part2.DatabaseManager.job_tuple <$> jobs) w = (Raise e, w1) →
     ∃ s', Part2.DatabaseManager.bulk_insert_jobs now jobs w =
       (Ret 0, mkWorld (mkConn (committed (conn w)) None s')
                       (log w ++ [mkLog ERROR "Database bulk insert error: {e}" [ArgExn e]]))).
Proof.
  split_and!.
  - by intros ->.
  - destruct (decide (jobs = [])) as [->|Hne]; [by eexists _, _|].
    pose proof (bulk_insert_jobs_run now jobs w Hne) as Hrun.
    destruct (Psycopg2.insert_pages _ _ _) as [e|[[rows' s'] n]]; [destruct Hrun|]; by eexists _, _.
  - intros e w1 Hne (err & t & s & -> & Hp & ->)%execute_pages_raise.
    pose proof (bulk_insert_jobs_run now jobs w Hne) as Hrun.
    by rewrite Hp in Hrun.
Qed.

(** A batch that fails in its second page: 100 new candidates, then one
    whose title is too long. *)
Lemma bulk_insert_jobs_absorbs_errors_witness :
  ∃ s', Part2.DatabaseManager.bulk_insert_jobs 0
          (Sample.numbered_jobs 100 ++ [Sample.overlong_job]) Sample.empty_db =
    (Ret 0, mkWorld (mkConn [] None s')
              [mkLog ERROR "Database bulk insert error: {e}"
                     [ArgExn (Psycopg2Error (StringDataRightTruncation 255))]]).
Proof.
  refine (proj2 (proj2 (bulk_insert_jobs_absorbs_errors 0
            (Sample.numbered_jobs 100 ++ [Sample.overlong_job]) Sample.empty_db))
          (Psycopg2Error (StringDataRightTruncation 255))
          (mkWorld (mkConn [] (Some (committed (conn
             (Part2.DatabaseManager.bulk_insert_jobs 0
                (Sample.numbered_jobs 100) Sample.empty_db).2))) 101) []) _ _).
  - discriminate.
  - vm_compute. reflexivity.
Defined.

(** ** The harvest *)

Lemma job_tuple_literal (t c l u s src : option string) :
  Part2.DatabaseManager.job_tuple
    (<["job_title" := t]> (<["company_name" := c]> (<["location" := l]>
    (<["job_url" := u]> (<["salary_info" := s]> (<["source_site" := src]> ∅)))))) =
  (t, c, l, u, s, src).
Proof.
  unfold Part2.DatabaseManager.job_tuple, dict_get.
  by repeat (rewrite ?lookup_insert_eq; rewrite ?lookup_insert_ne by done).
Qed.

Lemma contains_nonempty sub s :
  sub ≠ "" → Py.contains sub s = true → s ≠ "".
Proof. intros Hsub Hc ->. by destruct sub. Qed.

Section harvest.
Import Part2 Part2.JobScraper.
Context {Tag : Type} `{!Soup Tag}.
Variable urljoin : string → string → string.

Lemma first_job_link_Some links path :
  first_job_link links = Some path →
  path ∈ links ∧ Py.contains "/remote-jobs/" path = true.
Proof.
  induction links as [|link links IH]; simpl; [done|].
  destruct (Py.contains _ link) eqn:Hc.
  - intros [= ->]. split; [left|done].
  - intros [Hin ?]%IH. split; [by right|done].
Qed.

Lemma _find_job_link_truthy item path :
  _find_job_link item = Some path → Py.truthy (Some path) = true.
Proof.
  intros [_ Hc]%first_job_link_Some. simpl.
  rewrite bool_decide_eq_false_2; [done|]. eapply contains_nonempty; [|exact Hc]. done.
Qed.

Lemma scrape_item_unfold item :
  scrape_item urljoin item =
    match _find_job_link item with
    | None => None
    | Some job_path =>
        if Py.truthy (title_of item) && Py.truthy (company_of item) then
          Some (<["job_title" := title_of item]>
               (<["company_name" := company_of item]>
               (<["location" := Py.or (location_of item) (Some "Remote")]>
               (<["job_url" := Some (urljoin base_url job_path)]>
               (<["salary_info" := _find_salary item]>
               (<["source_site" := Some "WeWorkRemotely"]> ∅))))))
        else None
    end.
Proof.
  unfold scrape_item. destruct (_find_job_link item) as [path|] eqn:Hl; [|done].
  by rewrite (_find_job_link_truthy _ _ Hl).
Qed.

Lemma scrape_item_job_tuple item j :
  scrape_item urljoin item = Some j →
  ∃ path, _find_job_link item = Some path ∧
    DatabaseManager.job_tuple j =
      (title_of item, company_of item, Py.or (location_of item) (Some "Remote"),
       Some (urljoin base_url path), _find_salary item, Some "WeWorkRemotely").
Proof.
  rewrite scrape_item_unfold. destruct (_find_job_link item) as [path|]; [|done].
  destruct (_ && _); [|done]. intros [= <-]. exists path. by rewrite job_tuple_literal.
Qed.

Lemma scrape_weworkremotely_run session url w :
  ∃ l, scrape_weworkremotely urljoin session url w =
         (Ret (harvest urljoin session url), mkWorld (conn w) (log w ++ l)).
Proof.
  unfold scrape_weworkremotely, harvest, session_get. eff_unfold.
  destruct (session url); simpl; rewrite <-app_assoc; by eexists.
Qed.

Lemma harvest_urls session url :
  Forall (λ j, is_Some (Pg.url_of (DatabaseManager.job_tuple j))) (harvest urljoin session url).
Proof.
  unfold harvest. destruct (session url) as [soup|]; [|done].
  apply Forall_forall. intros j (item & _ & Hj)%list_elem_of_omap.
  apply scrape_item_job_tuple in Hj as (path & _ & ->). by eexists.
Qed.

(** [main] of part2_scrape.py, by what the harvest found. *)
Lemma main_run session now w :
  let jobs := harvest urljoin session target_url in
  let c := conn w in
  ∃ l1 l2,
    main urljoin session now w =
      if bool_decide (jobs = []) then
        (Ret None, mkWorld (mkConn (committed c) None (id_seq c)) (log w ++ l1))
      else
        let run := DatabaseManager.bulk_insert_jobs now jobs
                     (mkWorld (mkConn (committed c) None (id_seq c)) (log w ++ l1)) in
        (match run.1 with
         | Ret n => Ret (Some (length jobs, n))
         | Raise e => Raise e
         end,
         mkWorld (mkConn (committed (conn run.2)) None (id_seq (conn run.2)))
                 (log run.2 ++ l2)).
Proof.
  intros jobs c. unfold main, with_DatabaseManager.
  unfold mbind at 1. unfold Eff_bind at 1.
  edestruct (scrape_weworkremotely_run session target_url) as [l ->].
  fold jobs. cbn [conn log]. fold c.
  destruct (bool_decide (jobs = [])).
  - exists ([mkLog INFO "Database connection established." []] ++ l ++
            [mkLog WARNING "No jobs were found." []] ++
            [mkLog INFO "Database connection closed." []]), [].
    unfold mbind, Eff_bind, logging, mret, Eff_ret. cbn [conn log].
    by rewrite <-!app_assoc.
  - exists ([mkLog INFO "Database connection established." []] ++ l ++
            [mkLog INFO "Attempting to insert {len(jobs_to_insert)} jobs into the database..."
                    [ArgInt (Z.of_nat (length jobs))]]),
           [mkLog INFO "Database connection closed." []].
    unfold mbind, Eff_bind, logging, mret, Eff_ret. cbn [conn log].
    rewrite <-!app_assoc.
    by destruct (DatabaseManager.bulk_insert_jobs now jobs _) as [[n|e] w'].
Qed.

End harvest.

(** ** Running phase 1 again *)

Section rerun.
Import Pg.

Lemma varchar_is_Some n v v' :
  varchar n v = inr v' → is_Some v → is_Some v'.
Proof.
  intros Hv [s ->]. simpl in Hv.
  repeat case_match; simplify_eq; by eexists.
Qed.

Lemma coerce_url_is_Some v v' :
  coerce v = inr v' → is_Some (url_of v) → is_Some (url_of v').
Proof.
  destruct v as [[[[[t c] l] u] s] src]. unfold coerce, url_of. simpl.
  destruct (varchar 255 t), (varchar 255 c), (varchar 255 l),
    (varchar 512 u) eqn:Hu, (varchar 100 src); try done.
  intros [= <-]. simpl. by eapply varchar_is_Some.
Qed.

(** Pages whose (coerced) urls are all stored leave the table as it
    is, and the last statement counts no row. *)
Lemma insert_pages_all_conflict now pages rows s rc :
  Forall (λ v, ∃ v', coerce v = inr v' ∧ is_Some (url_of v') ∧
                      url_of v' ∈ job_url <$> rows) (concat pages) →
  Psycopg2.insert_pages now pages (rows, s, rc) =
    inr (rows, s + Z.of_nat (length (concat pages)),
         match pages with [] => rc | _ => 0 end).
Proof.
  revert s rc. induction pages as [|page pages IH]; intros s rc Hall.
  { simpl. congr_lia. }
  simpl in Hall. apply Forall_app in Hall as [Hpage Hpages].
  cbn [Psycopg2.insert_pages fst snd].
  rewrite insert_values_all_conflict by done.
  rewrite IH by done. cbn [concat]. rewrite length_app.
  destruct pages; simpl; congr_lia.
Qed.

(** Whether the pages fail does not depend on the table they meet. *)
Lemma insert_pages_error_stable now now' pages st st' e :
  Psycopg2.insert_pages now pages st = inl e →
  ∃ e', Psycopg2.insert_pages now' pages st' = inl e'.
Proof.
  destruct st as [[rows s] rc], st' as [[rows' s'] rc']. intros Hrun.
  pose proof (insert_pages_concat now pages rows s rc) as H1.
  pose proof (insert_pages_concat now' pages rows' s' rc') as H2.
  rewrite Hrun in H1.
  pose proof (insert_values_error now (concat pages) (rows, s, 0)) as E1.
  pose proof (insert_values_error now' (concat pages) (rows', s', 0)) as E2.
  destruct (insert_values _ now _ _) as [e1|[[? ?] ?]]; [|done].
  destruct (Psycopg2.insert_pages now' pages _) as [e'|[[? ?] ?]]; [by eexists|].
  destruct (insert_values _ now' _ _) as [e2|[[? ?] ?]]; [done|].
  destruct E1 as (v & Hv & He). rewrite Forall_forall in E2.
  destruct (E2 _ Hv) as [v' Hv']. congruence.
Qed.

Lemma insert_pages_urls_stored now pages rows s rc rows' s' n :
  Psycopg2.insert_pages now pages (rows, s, rc) = inr (rows', s', n) →
  Forall (λ v, ∃ v', coerce v = inr v' ∧
                      (is_Some (url_of v') → url_of v' ∈ job_url <$> rows'))
         (concat pages).
Proof.
  intros Hrun. pose proof (insert_pages_concat now pages rows s rc) as H.
  rewrite Hrun in H.
  destruct (insert_values _ now (concat pages) _) as [e|[[rows2 s2] n2]] eqn:Hv; [done|].
  destruct H as [-> ->]. by eapply insert_values_urls_stored.
Qed.

End rerun.

(** C2 (re-ingestion is idempotent).  Phase 1 ([main] of part2_scrape.py)
    run twice on a session that serves the same page: the committed table
    after the second run is the table after the first, and the second
    run's summary reports 0 rows inserted (when the page yields no job,
    [main] returns before the insert). *)
Theorem phase1_rerun_idempotent {Tag : Type} `{!Part2.Soup Tag}
    (urljoin : string → string → string)
    (session : string → Part2.http_result Tag) (now1 now2 : Z) (w : World) :
  let run1 := Part2.main urljoin session now1 w in
  let run2 := Part2.main urljoin session now2 run1.2 in
  committed (conn run2.2) = committed (conn run1.2) ∧
  match run2.1 with
  | Ret (Some (found, inserted)) =>
      found = length (Part2.JobScraper.harvest urljoin session Part2.target_url) ∧ inserted = 0
  | Ret None => Part2.JobScraper.harvest urljoin session Part2.target_url = []
  | Raise _ => False
  end.
Proof.
  intros run1 run2. subst run1 run2.
  destruct (main_run urljoin session now1 w) as (l1 & l2 & ->).
  set (jobs := Part2.JobScraper.harvest urljoin session Part2.target_url).
  case_bool_decide as Hjobs.
  { cbn [fst snd]. destruct (main_run urljoin session now2
      (mkWorld (mkConn (committed (conn w)) None (id_seq (conn w))) (log w ++ l1)))
      as (l3 & l4 & ->).
    fold jobs. by rewrite bool_decide_eq_true_2. }
  cbn [fst snd].
  match goal with |- context [Part2.main _ _ now2 ?w1] =>
    destruct (main_run urljoin session now2 w1) as (l3 & l4 & ->) end.
  fold jobs. rewrite bool_decide_eq_false_2 by done. cbn [fst snd conn log committed id_seq].
  set (pages := Psycopg2.paginate 100 (Part2.DatabaseManager.job_tuple <$> jobs)).
  pose proof (bulk_insert_jobs_run now1 jobs
    (mkWorld (mkConn (committed (conn w)) None (id_seq (conn w))) (log w ++ l1)) Hjobs) as R1.
  fold pages in R1. cbn [conn log view committed txn id_seq default] in R1.
  destruct (Psycopg2.insert_pages now1 pages _) as [e|[[rows1 s1] n1]] eqn:Hp1.
  - destruct R1 as [s' ->]. cbn [fst snd conn log committed id_seq].
    match goal with |- context [Part2.DatabaseManager.bulk_insert_jobs now2 jobs ?w1] =>
      pose proof (bulk_insert_jobs_run now2 jobs w1 Hjobs) as R2 end.
    fold pages in R2. cbn [conn log view committed txn id_seq default] in R2.
    destruct (insert_pages_error_stable now1 now2 pages _ (committed (conn w), s', -1) _ Hp1)
      as [e' He'].
    rewrite He' in R2. destruct R2 as [s'' ->]. done.
  - rewrite R1. cbn [fst snd conn log committed id_seq].
    match goal with |- context [Part2.DatabaseManager.bulk_insert_jobs now2 jobs ?w1] =>
      pose proof (bulk_insert_jobs_run now2 jobs w1 Hjobs) as R2 end.
    fold pages in R2. cbn [conn log view committed txn id_seq default] in R2.
    rewrite insert_pages_all_conflict in R2.
    { rewrite R2. cbn [fst snd conn committed].
      split; [done|]. split; [done|].
      destruct pages eqn:Hpages; [|done].
      exfalso. eapply (paginate_nonempty 100 (Part2.DatabaseManager.job_tuple <$> jobs));
        [by destruct jobs|done]. }
    apply insert_pages_urls_stored in Hp1.
    unfold pages in *. rewrite paginate_concat in *.
    pose proof (harvest_urls urljoin session Part2.target_url) as Hurls. fold jobs in Hurls.
    rewrite Forall_fmap in Hp1 |- *. rewrite Forall_forall in Hp1, Hurls |- *.
    intros j Hj. destruct (Hp1 j Hj) as (v' & Hv' & Hin). simpl in *.
    exists v'. pose proof (coerce_url_is_Some _ _ Hv' (Hurls j Hj)). auto.
Qed.

(** The scenario of the specification on the sample page: two of the
    three items are harvested and inserted; the second run inserts none. *)
Example phase1_sample_page :
  let run1 := Part2.main Html.urljoin Sample.session 10 Sample.empty_db in
  let run2 := Part2.main Html.urljoin Sample.session 20 run1.2 in
  run1.1 = Ret (Some (2%nat, 2)) ∧ run2.1 = Ret (Some (2%nat, 0)) ∧
  length (committed (conn run2.2)) = 2%nat.
Proof. by vm_compute. Qed.

(** ** The query for incomplete records *)

Section jobs_to_update.
Import Pg.

Global Instance id_le_trans : Transitive id_le.
Proof. intros r1 r2 r3. unfold id_le. lia. Qed.

Global Instance id_le_total : Total id_le.
Proof. intros r1 r2. unfold id_le. lia. Qed.

Lemma needs_description_spaces r : needs_description r = null_or_spaces r.
Proof.
  unfold needs_description, null_or_spaces. destruct (job_description r) as [d|]; [|done].
  unfold trim. destruct (Py.all_chars is_space d) eqn:Hd.
  - by apply bool_decide_eq_true_2, strip_by_empty.
  - apply bool_decide_eq_false_2. rewrite strip_by_empty. congruence.
Qed.

Lemma jobs_to_update_perm rows :
  jobs_to_update rows ≡ₚ id_and_url <$> filter (λ r, null_or_spaces r = true) rows.
Proof.
  unfold jobs_to_update. rewrite merge_sort_Permutation.
  apply Permutation_refl'. f_equal. apply list_filter_iff.
  intros r. by rewrite needs_description_spaces.
Qed.

Lemma jobs_to_update_sorted rows :
  StronglySorted (λ a b, a.1 ≤ b.1) (jobs_to_update rows).
Proof.
  unfold jobs_to_update.
  apply (StronglySorted_fmap id_and_url id_le (λ a b, a.1 ≤ b.1)); [done|].
  apply (StronglySorted_merge_sort id_le).
Qed.

Lemma elem_of_jobs_to_update rows job :
  job ∈ jobs_to_update rows ↔
  ∃ r, r ∈ rows ∧ needs_description r = true ∧ id_and_url r = job.
Proof.
  unfold jobs_to_update. rewrite list_elem_of_fmap.
  setoid_rewrite merge_sort_Permutation. setoid_rewrite list_elem_of_filter.
  split.
  - intros (r & -> & Hneeds & Hr). by exists r.
  - intros (r & Hr & Hneeds & <-). by exists r.
Qed.

Lemma StronglySorted_take {A} (R : relation A) n (l : list A) :
  StronglySorted R l → StronglySorted R (take n l).
Proof.
  intros Hl. rewrite <-(take_drop n l) in Hl. by apply StronglySorted_app_1_l in Hl.
Qed.

Lemma get_jobs_to_update_run limit w :
  Part3.DatabaseManager.get_jobs_to_update limit w =
    let w' := mkWorld (mkConn (committed (conn w)) (Some (view (conn w))) (id_seq (conn w)))
                      (log w) in
    match limit with
    | None => (Ret (jobs_to_update (view (conn w))), w')
    | Some n =>
        if bool_decide (n = 0) then (Ret (jobs_to_update (view (conn w))), w')
        else if bool_decide (n < 0) then (Raise (Psycopg2Error InvalidRowCountInLimitClause), w')
        else (Ret (take (Z.to_nat n) (jobs_to_update (view (conn w)))), w')
    end.
Proof.
  unfold Part3.DatabaseManager.get_jobs_to_update. eff_unfold.
  unfold select_jobs_to_update.
  destruct limit as [n|]; [|done]. repeat case_bool_decide; done.
Qed.
End jobs_to_update.

(** C3 as stated fails on a description made of whitespace other than
    spaces: a row whose description is a single TAB is blank once
    whitespace is trimmed, and the query does not return it. *)
Lemma get_jobs_to_update_skips_tab :
  spec_incomplete Sample.tab_row = true ∧
  Sample.tab_row ∈ view (conn Sample.tab_only) ∧
  (Part3.DatabaseManager.get_jobs_to_update (Some 10) Sample.tab_only).1 = Ret [].
Proof. split_and!; [by vm_compute|left|by vm_compute]. Qed.

(** C3 (what [get_jobs_to_update] returns), amended: for every table and
    every limit above 0, the call returns the [id] and [job_url] of the
    rows whose description is null or consists of space characters
    (U+0020) only, in non-decreasing order of [id], cut to the first
    [limit] of them; without a limit it returns them all.  The table
    itself is not changed. *)
Theorem get_jobs_to_update_returns (limit : Z) (w : World) :
  0 < limit →
  let hits := Pg.jobs_to_update (view (conn w)) in
  let run := Part3.DatabaseManager.get_jobs_to_update (Some limit) w in
  run.1 = Ret (take (Z.to_nat limit) hits) ∧
  (Part3.DatabaseManager.get_jobs_to_update None w).1 = Ret hits ∧
  hits ≡ₚ Pg.id_and_url <$> filter (λ r, Pg.null_or_spaces r = true) (view (conn w)) ∧
  StronglySorted (λ a b, a.1 ≤ b.1) hits ∧
  StronglySorted (λ a b, a.1 ≤ b.1) (take (Z.to_nat limit) hits) ∧
  (length (take (Z.to_nat limit) hits) ≤ Z.to_nat limit)%nat ∧
  view (conn run.2) = view (conn w) ∧ committed (conn run.2) = committed (conn w).
Proof.
  intros Hlimit hits run. subst run. rewrite !get_jobs_to_update_run.
  rewrite bool_decide_eq_false_2 by lia. rewrite bool_decide_eq_false_2 by lia.
  cbn [fst snd conn view committed txn default].
  split_and!; try done.
  - apply jobs_to_update_perm.
  - apply jobs_to_update_sorted.
  - apply StronglySorted_take, jobs_to_update_sorted.
  - rewrite length_take. lia.
Qed.

Lemma get_jobs_to_update_returns_witness :
  (Part3.DatabaseManager.get_jobs_to_update (Some 3) Sample.backlog).1 =
    Ret (take 3 (Pg.jobs_to_update (view (conn Sample.backlog)))) ∧
  Pg.jobs_to_update (view (conn Sample.backlog)) =
    Pg.id_and_url <$> [Sample.job_row 1 None; Sample.job_row 2 (Some "");
                       Sample.job_row 3 (Some "   "); Sample.job_row 5 None;
                       Sample.job_row 6 None].
Proof.
  split.
  - exact (proj1 (get_jobs_to_update_returns 3 Sample.backlog ltac:(lia))).
  - by vm_compute.
Defined.

(** C10 (a limit of 0 is no limit).  [get_jobs_to_update(0)] does what
    [get_jobs_to_update(None)] does: it returns all the incomplete
    records, not an empty list. *)
Theorem get_jobs_to_update_zero_is_unlimited (w : World) :
  Part3.DatabaseManager.get_jobs_to_update (Some 0) w =
    Part3.DatabaseManager.get_jobs_to_update None w ∧
  (Part3.DatabaseManager.get_jobs_to_update (Some 0) w).1 =
    Ret (Pg.jobs_to_update (view (conn w))) ∧
  (Part3.DatabaseManager.get_jobs_to_update (Some 0) Sample.backlog).1 =
    Ret (Pg.id_and_url <$> [Sample.job_row 1 None; Sample.job_row 2 (Some "");
                            Sample.job_row 3 (Some "   "); Sample.job_row 5 None;
                            Sample.job_row 6 None]).
Proof. rewrite !get_jobs_to_update_run. split_and!; [done..|by vm_compute]. Qed.

(** ** Writing a description *)

Lemma update_description_run job_id description w :
  Part3.DatabaseManager.update_description job_id description w =
    (Ret (), mkWorld (mkConn (Pg.update_job_description (Some description) job_id
                                (view (conn w))) None (id_seq (conn w))) (log w)).
Proof. unfold Part3.DatabaseManager.update_description. by eff_unfold. Qed.

Lemma set_job_description_same d r : same_but_description r (set_job_description d r).
Proof. by repeat split. Qed.

(** C9 (frame of [update_description]).  The call returns normally and
    commits: afterwards no transaction is open and the committed table is
    the table the connection saw, row for row, where a row with the given
    id has the new description and its other columns as before, and every
    other row is as it was. *)
Theorem update_description_frame (i : Z) (description : string) (w : World) :
  let run := Part3.DatabaseManager.update_description i description w in
  run.1 = Ret () ∧
  txn (conn run.2) = None ∧
  id_seq (conn run.2) = id_seq (conn w) ∧
  log run.2 = log w ∧
  Forall2 (λ r r', same_but_description r r' ∧
                   (job_id r = i → job_description r' = Some description) ∧
                   (job_id r ≠ i → r' = r))
          (view (conn w)) (committed (conn run.2)).
Proof.
  intros run. subst run. rewrite update_description_run. cbn [fst snd conn committed txn id_seq log].
  split_and!; try done.
  unfold Pg.update_job_description. apply Forall2_fmap_r, Forall_Forall2_diag, Forall_forall.
  intros r _. unfold compose.
  case_bool_decide; split_and!; auto using set_job_description_same; done.
Qed.

(** ** The backfill *)

Section backfill.
Import Part3.
Variable driver : WebDriver.

Lemma scrape_full_description_run i url selector w :
  ∃ l, scrape_full_description driver i url selector w =
    (Ret match driver i url selector with
         | ElementText text => Some text
         | TimeoutException | OtherException => None
         end,
     mkWorld (conn w) (log w ++ l)).
Proof.
  unfold scrape_full_description. destruct w as [c l0].
  destruct (driver i url selector); eff_unfold; cbn [conn log].
  - exists []. by rewrite app_nil_r.
  - by eexists.
  - by eexists.
Qed.

Lemma backfill_rows_cons ij ijs rows :
  backfill_rows driver (ij :: ijs) rows =
    backfill_rows driver ijs (backfill_step driver ij <$> rows).
Proof. unfold backfill_rows. by rewrite <-list_fmap_compose. Qed.

Lemma process_job_run total ij cnt w :
  view (conn w) = committed (conn w) →
  ∃ w', process_job driver total ij cnt w =
          (Ret (if Py.truthy (fetched driver ij.1 ij.2) then S cnt else cnt), w') ∧
        view (conn w') = committed (conn w') ∧
        committed (conn w') = backfill_step driver ij <$> committed (conn w) ∧
        id_seq (conn w') = id_seq (conn w) ∧
        ∃ l, log w' = log w ++ l.
Proof.
  intros Hclean. destruct ij as [i job]. unfold process_job.
  unfold mbind at 1. unfold Eff_bind at 1. unfold logging at 1.
  unfold mbind at 1. unfold Eff_bind at 1.
  edestruct (scrape_full_description_run i job.2 DESCRIPTION_SELECTOR) as [l ->].
  cbn [conn log]. fold (fetched driver i job).
  unfold backfill_step. cbn [fst snd].
  destruct (fetched driver i job) as [text|] eqn:Hf; cbn [Py.truthy];
    [destruct (bool_decide (text = "")) eqn:Ht; cbn [negb]|].
  - eexists. split; [by eff_unfold|]. cbn [conn log].
    split_and!; [done| |done|rewrite <-!app_assoc; by eexists].
    by rewrite list_fmap_id.
  - unfold mbind at 1. unfold Eff_bind at 1. rewrite update_description_run.
    eexists. split; [by eff_unfold|]. cbn [conn log view committed txn default id_seq].
    split_and!; [done| |done|rewrite <-!app_assoc; by eexists]. by rewrite Hclean.
  - eexists. split; [by eff_unfold|]. cbn [conn log].
    split_and!; [done| |done|rewrite <-!app_assoc; by eexists].
    by rewrite list_fmap_id.
Qed.

Lemma backfill_count_cons ij ijs :
  backfill_count driver (ij :: ijs) =
    ((if Py.truthy (fetched driver ij.1 ij.2) then 1 else 0) + backfill_count driver ijs)%nat.
Proof.
  unfold backfill_count. rewrite filter_cons.
  destruct (Py.truthy _); by case_decide.
Qed.

Lemma for_each_process_job total ijs cnt w :
  view (conn w) = committed (conn w) →
  ∃ w', for_each ijs (process_job driver total) cnt w =
          (Ret (cnt + backfill_count driver ijs)%nat, w') ∧
        view (conn w') = committed (conn w') ∧
        committed (conn w') = backfill_rows driver ijs (committed (conn w)) ∧
        id_seq (conn w') = id_seq (conn w) ∧
        ∃ l, log w' = log w ++ l.
Proof.
  revert cnt w. induction ijs as [|ij ijs IH]; intros cnt w Hclean.
  { exists w. unfold backfill_rows, backfill_row. simpl.
    rewrite list_fmap_id. split_and!; [|done..|exists []; by rewrite app_nil_r].
    eff_unfold. congr_lia. }
  cbn [for_each]. unfold mbind, Eff_bind.
  destruct (process_job_run total ij cnt w Hclean)
    as (w1 & -> & Hclean1 & Hrows1 & Hseq1 & l1 & Hlog1).
  destruct (IH (if Py.truthy (fetched driver ij.1 ij.2) then S cnt else cnt) w1 Hclean1)
    as (w' & -> & Hclean' & Hrows' & Hseq' & l' & Hlog').
  exists w'. rewrite backfill_count_cons, backfill_rows_cons, <-Hrows1.
  split_and!; [|done..|congruence|].
  - destruct (Py.truthy _); congr_lia.
  - exists (l1 ++ l'). by rewrite Hlog', Hlog1, app_assoc.
Qed.

(** [main] of part3_scrape_JD.py, as a function of the committed table. *)
Lemma backfill_main_run w :
  let jobs := Pg.jobs_to_update (committed (conn w)) in
  ∃ l, main driver w =
    (Ret (if bool_decide (jobs = []) then None
          else Some (length jobs, backfill_count driver (enumerate 1 jobs))),
     mkWorld (mkConn (backfill_rows driver (enumerate 1 jobs) (committed (conn w)))
                     None (id_seq (conn w)))
             (log w ++ l)).
Proof.
  intros jobs. unfold main, with_DatabaseManager.
  unfold mbind at 1. unfold Eff_bind at 1.
  rewrite get_jobs_to_update_run. unfold JOB_LIMIT.
  cbn [conn log view committed txn default id_seq]. fold jobs.
  destruct (bool_decide (jobs = [])) eqn:Hjobs.
  - apply bool_decide_eq_true in Hjobs. rewrite Hjobs. eff_unfold. cbn.
    unfold backfill_rows, backfill_row. simpl. rewrite list_fmap_id. by eexists.
  - unfold mbind at 1. unfold Eff_bind at 1. unfold logging at 1. cbn [conn log].
    unfold mbind at 1. unfold Eff_bind at 1. unfold try_finally.
    match goal with |- context [for_each _ _ _ ?w1] =>
      destruct (for_each_process_job (length jobs) (enumerate 1 jobs) 0%nat w1)
        as (w' & -> & _ & Hrows & Hseq & l' & Hlog); [done|] end.
    cbn [conn committed id_seq log] in Hrows, Hseq, Hlog.
    unfold logging, mret, Eff_ret. cbn [conn log]. rewrite Hrows, Hseq, Hlog.
    rewrite <-!app_assoc. by eexists.
Qed.
End backfill.

Section backfill_rows.
Import Part3.
Variable driver : WebDriver.
Implicit Types ijs : list (nat * (Z * option string)).

Lemma backfill_step_same ij r : same_but_description r (backfill_step driver ij r).
Proof. unfold backfill_step. destruct (_ && _); by repeat split. Qed.

Lemma backfill_row_same ijs r : same_but_description r (backfill_row driver ijs r).
Proof.
  revert r. induction ijs as [|ij ijs IH]; intros r; [by repeat split|].
  unfold backfill_row in *. cbn [foldl].
  pose proof (backfill_step_same ij r) as H1.
  pose proof (IH (backfill_step driver ij r)) as H2.
  unfold same_but_description in *. destruct_and!. split_and!; congruence.
Qed.

(** A row stays as it is when every job with its id failed. *)
Lemma backfill_row_unchanged ijs r :
  (∀ ij, ij ∈ ijs → ij.2.1 = job_id r → Py.truthy (fetched driver ij.1 ij.2) = false) →
  backfill_row driver ijs r = r.
Proof.
  induction ijs as [|ij ijs IH]; intros Hfail; [done|].
  unfold backfill_row in *. cbn [foldl].
  assert (backfill_step driver ij r = r) as ->.
  { unfold backfill_step. case_bool_decide as Hid; [|by rewrite andb_false_r].
    rewrite (Hfail ij); [done|left|done]. }
  apply IH. intros ij' Hin. apply Hfail. by right.
Qed.

(** A row has the text of the one successful job with its id. *)
Lemma backfill_row_updated ijs ij r text :
  NoDup ((λ ij, ij.2.1) <$> ijs) →
  ij ∈ ijs → ij.2.1 = job_id r →
  fetched driver ij.1 ij.2 = Some text → text ≠ "" →
  job_description (backfill_row driver ijs r) = Some text.
Proof.
  intros Hnodup Hin Hid Hf Ht. revert r Hid.
  induction ijs as [|ij' ijs IH]; intros r Hid; [by apply elem_of_nil in Hin|].
  rewrite fmap_cons in Hnodup. apply NoDup_cons in Hnodup as [Hfresh Hnodup].
  unfold backfill_row in *. cbn [foldl].
  apply elem_of_cons in Hin as [<-|Hin].
  - assert (backfill_step driver ij r = set_job_description (Some text) r) as ->.
    { unfold backfill_step. rewrite Hf. simpl.
      rewrite bool_decide_eq_false_2, bool_decide_eq_true_2 by done. done. }
    fold (backfill_row driver ijs (set_job_description (Some text) r)).
    rewrite backfill_row_unchanged; [done|].
    intros ij' Hin' Hid'. exfalso. apply Hfresh.
    apply list_elem_of_fmap. exists ij'. simpl in *. split; [congruence|done].
  - apply IH; [done..|].
    pose proof (backfill_step_same ij' r) as [Hsame _]. congruence.
Qed.

Lemma elem_of_enumerate {A} (start : nat) (xs : list A) i x :
  (i, x) ∈ enumerate start xs ↔ ∃ k, i = (start + k)%nat ∧ xs !! k = Some x.
Proof.
  revert start. induction xs as [|y xs IH]; intros start; simpl.
  { split; [by intros ?%elem_of_nil|]. by intros (k & _ & ?). }
  rewrite elem_of_cons, IH. split.
  - intros [[= -> ->]|(k & -> & Hk)]; [exists 0%nat|exists (S k)];
      split; try done; lia.
  - intros ([|k] & -> & Hk); simpl in Hk.
    + left. simplify_eq. f_equal. lia.
    + right. exists k. split; [lia|done].
Qed.

Lemma enumerate_snd {A} (start : nat) (xs : list A) :
  snd <$> enumerate start xs = xs.
Proof. revert start. induction xs as [|x xs IH]; intros start; simpl; by f_equal. Qed.

Lemma jobs_to_update_NoDup rows :
  NoDup (job_id <$> rows) → NoDup (fst <$> Pg.jobs_to_update rows).
Proof.
  intros Hrows. unfold Pg.jobs_to_update. rewrite <-list_fmap_compose.
  rewrite merge_sort_Permutation.
  eapply sublist_NoDup; [done|]. apply fmap_sublist, sublist_filter.
Qed.
End backfill_rows.

(** C4 (a failed fetch is isolated).  On a table whose ids are pairwise
    different (the primary key), [main] of part3_scrape_JD.py returns
    normally having processed every incomplete record.  A record whose
    fetch failed (a timeout, another exception of the driver, or an empty
    text) is afterwards as it was, and the query for incomplete records
    returns it again; a record whose fetch gave a text has that text as
    its description.  With five incomplete records of which exactly the
    third fails, the summary reports 5 processed and 4 updated. *)
Theorem backfill_isolates_failures (driver : Part3.WebDriver) (w : World) :
  NoDup (job_id <$> committed (conn w)) →
  let jobs := Pg.jobs_to_update (committed (conn w)) in
  let run := Part3.main driver w in
  let after := committed (conn run.2) in
  run.1 = Ret (if bool_decide (jobs = []) then None
               else Some (length jobs,
                          Part3.backfill_count driver (Part3.enumerate 1 jobs))) ∧
  (∀ k job, jobs !! k = Some job →
     Py.truthy (Part3.fetched driver (S k) job) = false →
     (∀ r, r ∈ committed (conn w) → job_id r = job.1 → r ∈ after) ∧
     job ∈ Pg.jobs_to_update after) ∧
  (∀ k job text, jobs !! k = Some job →
     Part3.fetched driver (S k) job = Some text → text ≠ "" →
     ∃ r, r ∈ after ∧ Pg.id_and_url r = job ∧ job_description r = Some text) ∧
  (length jobs = 5%nat →
   (∀ k job, jobs !! k = Some job →
      (Py.truthy (Part3.fetched driver (S k) job) = false ↔ k = 2%nat)) →
   run.1 = Ret (Some (5%nat, 4%nat))).
Proof.
  intros Hids jobs run after.
  destruct (backfill_main_run driver w) as [l Hrun]. fold jobs in Hrun.
  assert (after = Part3.backfill_row driver (Part3.enumerate 1 jobs) <$> committed (conn w))
    as Hafter by (unfold after, run; by rewrite Hrun).
  assert (run.1 = Ret (if bool_decide (jobs = []) then None
               else Some (length jobs,
                          Part3.backfill_count driver (Part3.enumerate 1 jobs))))
    as Hret by (unfold run; by rewrite Hrun).
  pose proof (jobs_to_update_NoDup _ Hids) as Hnodup. fold jobs in Hnodup.
  assert (Hkeep : ∀ k job r, jobs !! k = Some job →
            Py.truthy (Part3.fetched driver (S k) job) = false →
            job_id r = job.1 →
            Part3.backfill_row driver (Part3.enumerate 1 jobs) r = r).
  { intros k job r Hk Hfail Hid. apply backfill_row_unchanged.
    intros [i' job'] (k' & -> & Hk')%elem_of_enumerate Hid'. simpl in *.
    assert (k' = k) as ->.
    { eapply (NoDup_lookup _ _ _ _ Hnodup); rewrite list_lookup_fmap.
      - by rewrite Hk'.
      - rewrite Hk. simpl. congruence. }
    by simplify_eq. }
  split_and!; [done| | |].
  - intros k job Hk Hfail.
    assert (∀ r, r ∈ committed (conn w) → job_id r = job.1 → r ∈ after) as Hsame.
    { intros r Hr Hid. rewrite Hafter. apply list_elem_of_fmap. exists r.
      split; [|done]. symmetry. by eapply Hkeep. }
    split; [done|].
    assert (job ∈ jobs) as (r & Hr & Hneeds & Hjob)%elem_of_jobs_to_update
      by (by eapply list_elem_of_lookup_2).
    apply elem_of_jobs_to_update. exists r. split_and!; [|done..].
    apply Hsame; [done|]. by rewrite <-Hjob.
  - intros k job text Hk Hf Ht.
    assert (job ∈ jobs) as (r & Hr & Hneeds & Hjob)%elem_of_jobs_to_update
      by (by eapply list_elem_of_lookup_2).
    exists (Part3.backfill_row driver (Part3.enumerate 1 jobs) r).
    pose proof (backfill_row_same driver (Part3.enumerate 1 jobs) r) as Hsame.
    split_and!.
    + rewrite Hafter. apply list_elem_of_fmap. by exists r.
    + unfold same_but_description in Hsame. destruct_and!.
      rewrite <-Hjob. unfold Pg.id_and_url. congruence.
    + eapply (backfill_row_updated driver _ (S k, job)); [|by apply elem_of_enumerate; exists k|
        by rewrite <-Hjob|done..].
      replace ((λ ij : nat * (Z * option string), ij.2.1) <$> Part3.enumerate 1 jobs)
        with (fst <$> (snd <$> Part3.enumerate 1 jobs))
        by (by rewrite <-list_fmap_compose).
      by rewrite enumerate_snd.
  - intros Hlen Hthird. rewrite Hret.
    destruct jobs as [|j0 [|j1 [|j2 [|j3 [|j4 [|]]]]]]; try done.
    rewrite bool_decide_eq_false_2 by done.
    assert (∀ k job, [j0; j1; j2; j3; j4] !! k = Some job → k ≠ 2%nat →
              Py.truthy (Part3.fetched driver (S k) job) = true) as Hok.
    { intros k job Hk Hne. destruct (Py.truthy _) eqn:E; [done|]. by apply Hthird in E. }
    cbn [Part3.enumerate]. rewrite !backfill_count_cons. cbn [fst snd].
    rewrite (Hok 0%nat j0), (Hok 1%nat j1), (Hok 3%nat j3), (Hok 4%nat j4) by done.
    rewrite (proj2 (Hthird 2%nat j2 eq_refl)) by done. done.
Qed.

(** The sample table: ids 1, 2, 3, 5 and 6 are incomplete, and the
    browser times out on the third of them. *)
Lemma backfill_isolates_failures_witness :
  (Part3.main Sample.driver Sample.backlog).1 = Ret (Some (5%nat, 4%nat)) ∧
  Sample.job_row 3 (Some "   ") ∈ committed (conn (Part3.main Sample.driver Sample.backlog).2).
Proof.
  assert (NoDup (job_id <$> committed (conn Sample.backlog))) as Hids.
  { apply (bool_decide_unpack _). vm_compute. exact I. }
  split.
  - refine (proj2 (proj2 (proj2 (backfill_isolates_failures Sample.driver Sample.backlog Hids)))
              _ _).
    + vm_compute. reflexivity.
    + intros k job.
      do 5 (destruct k as [|k];
            [intros [= <-]; vm_compute; split; intros ?; first [reflexivity|discriminate]|]).
      vm_compute. discriminate.
  - refine (proj1 (proj1 (proj2 (backfill_isolates_failures Sample.driver Sample.backlog Hids))
                     2%nat (3, Some "https://weworkremotely.com/remote-jobs/job-3") _ _)
              (Sample.job_row 3 (Some "   ")) _ _).
    + vm_compute. reflexivity.
    + vm_compute. reflexivity.
    + apply (bool_decide_unpack _). vm_compute. exact I.
    + reflexivity.
Defined.

(** ** Uniqueness of [job_url] *)

Section unique.
Import Pg.

Lemma varchar_fits n v :
  (String.length (default "" v) ≤ n)%nat → varchar n v = inr v.
Proof. destruct v as [s|]; simpl; [|done]. intros H. by rewrite bool_decide_eq_true_2. Qed.

Lemma coerce_fits v : fits v → coerce v = inr v.
Proof.
  destruct v as [[[[[t c] l] u] s] src]. unfold fits, coerce.
  intros (Ht & Hc & Hl & Hu & Hsrc). by rewrite !varchar_fits.
Qed.

(** Without the [ON CONFLICT] clause a stored url is an error. *)
Lemma insert_row_without_clause now v rows s n :
  fits v → is_Some (url_of v) → url_of v ∈ job_url <$> rows →
  insert_row NoConflictClause now v (rows, s, n) =
    inl (UniqueViolation "job_listings_job_url_key").
Proof.
  intros Hfits [u Hu] Hin. unfold insert_row. rewrite coerce_fits by done.
  destruct v as [[[[[t c] l] u'] sal] src]. unfold url_of in *. simpl in *. subst u'.
  unfold url_conflict. by rewrite bool_decide_eq_true_2.
Qed.

Lemma insert_values_urls_unique now vs rows s n rows' s' n' :
  Forall (λ v, is_Some (url_of v)) vs →
  urls_unique rows →
  insert_values OnConflictDoNothing now vs (rows, s, n) = inr (rows', s', n') →
  urls_unique rows'.
Proof.
  revert rows s n. induction vs as [|v vs IH]; intros rows s n Hvs Hrows; simpl.
  { by intros [= <- <- <-]. }
  apply Forall_cons in Hvs as [Hv Hvs]. unfold insert_row.
  destruct (coerce v) as [e|v'] eqn:Hc; [done|].
  pose proof (coerce_url_is_Some _ _ Hc Hv) as [u Hu].
  destruct v' as [[[[[t c] l] u'] sal] src]. unfold url_of in Hu. simpl in Hu. subst u'.
  destruct (url_conflict (Some u) rows) eqn:Hconf; [by apply IH|].
  apply IH; [done|]. destruct Hrows as [Hnodup Hsome].
  unfold url_conflict in Hconf. apply bool_decide_eq_false in Hconf.
  split.
  - rewrite fmap_app. apply NoDup_app. split_and!; [done| |apply NoDup_singleton].
    intros x Hx ->%list_elem_of_singleton. done.
  - apply Forall_app. split; [done|]. by repeat constructor.
Qed.

Lemma backfill_rows_urls driver ijs rows :
  job_url <$> Part3.backfill_rows driver ijs rows = job_url <$> rows.
Proof.
  unfold Part3.backfill_rows. rewrite <-list_fmap_compose. apply list_fmap_ext.
  intros i r _. simpl. pose proof (backfill_row_same driver ijs r) as H.
  unfold same_but_description in H. by destruct_and!.
Qed.

Lemma urls_unique_backfill driver ijs rows :
  urls_unique rows → urls_unique (Part3.backfill_rows driver ijs rows).
Proof.
  unfold urls_unique. rewrite backfill_rows_urls. intros [Hnodup Hsome].
  split; [done|]. unfold Part3.backfill_rows.
  apply Forall_fmap, Forall_forall. intros r Hr. simpl.
  rewrite Forall_forall in Hsome.
  pose proof (backfill_row_same driver ijs r) as (_ & _ & _ & _ & Hurl & _).
  rewrite Hurl. by apply Hsome.
Qed.

Lemma reachable_invariant w :
  reachable w → urls_unique (committed (conn w)) ∧ txn (conn w) = None.
Proof.
  induction 1 as [|Tag S urljoin session now w _ [IH _]|driver w _ [IH _]].
  - split; [|done]. split; simpl; constructor.
  - destruct (main_run urljoin session now w) as (l1 & l2 & ->).
    set (jobs := Part2.JobScraper.harvest urljoin session Part2.target_url).
    case_bool_decide as Hjobs; [done|]. cbn [snd conn committed txn]. split; [|done].
    pose proof (bulk_insert_jobs_run now jobs
      (mkWorld (mkConn (committed (conn w)) None (id_seq (conn w))) (log w ++ l1)) Hjobs) as R.
    cbn [conn log view committed txn id_seq default] in R.
    destruct (Psycopg2.insert_pages now _ _) as [e|[[rows' s'] n]] eqn:Hp.
    + destruct R as [s' ->]. done.
    + rewrite R. cbn [snd conn committed].
      pose proof (insert_pages_concat now
        (Psycopg2.paginate 100 (Part2.DatabaseManager.job_tuple <$> jobs))
        (committed (conn w)) (id_seq (conn w)) (-1)) as H.
      rewrite Hp in H. rewrite paginate_concat in H.
      destruct (insert_values _ _ _ _) as [e|[[rows2 s2] n2]] eqn:Hv; [done|].
      destruct H as [-> ->].
      eapply insert_values_urls_unique; [|exact IH|exact Hv].
      apply Forall_fmap. apply harvest_urls.
  - destruct (backfill_main_run driver w) as [l ->]. cbn [snd conn committed txn].
    split; [|done]. by apply urls_unique_backfill.
Qed.
End unique.

(** C5 (job_url is unique).  In every state the system reaches, no two
    rows of the table have the same [job_url] (and none has a null one),
    and inserting candidates whose urls are stored already is a no-op and
    not an error: [bulk_insert_jobs] returns 0, the table is as it was,
    and nothing is logged. *)
Theorem job_url_unique_when_reachable (w : World) :
  reachable w →
  NoDup (job_url <$> committed (conn w)) ∧
  (∀ i j r1 r2,
     committed (conn w) !! i = Some r1 → committed (conn w) !! j = Some r2 →
     job_url r1 = job_url r2 → i = j) ∧
  (∀ now (jobs : list Dict),
     Forall (λ j, Pg.fits (Part2.DatabaseManager.job_tuple j) ∧
                  is_Some (dict_get j "job_url") ∧
                  dict_get j "job_url" ∈ job_url <$> committed (conn w)) jobs →
     ∃ s', Part2.DatabaseManager.bulk_insert_jobs now jobs w =
             (Ret 0, mkWorld (mkConn (committed (conn w)) None s') (log w))).
Proof.
  intros [[Hnodup _] Htxn]%reachable_invariant. split_and!; [done| |].
  - intros i j r1 r2 Hi Hj Heq.
    eapply (NoDup_lookup _ _ _ _ Hnodup); rewrite list_lookup_fmap.
    + by rewrite Hi.
    + rewrite Hj. simpl. congruence.
  - intros now jobs Hjobs. destruct (decide (jobs = [])) as [->|Hne].
    { exists (id_seq (conn w)). destruct w as [[c t s] l]. simpl in *. by subst. }
    pose proof (bulk_insert_jobs_run now jobs w Hne) as R.
    unfold view in R. rewrite Htxn in R. cbn [default] in R.
    rewrite insert_pages_all_conflict in R.
    + rewrite R. destruct (Psycopg2.paginate 100 _) eqn:Hp; [|by eexists].
      exfalso. eapply (paginate_nonempty 100 (Part2.DatabaseManager.job_tuple <$> jobs));
        [by destruct jobs|done].
    + rewrite paginate_concat. apply Forall_fmap. eapply Forall_impl; [exact Hjobs|].
      intros j (Hfits & Hsome & Hin). simpl.
      exists (Part2.DatabaseManager.job_tuple j). by rewrite coerce_fits.
Qed.

(** The sample page inserted once; its two candidates again. *)
Lemma job_url_unique_when_reachable_witness :
  let w := (Part2.main Html.urljoin Sample.session 10 after_setup).2 in
  NoDup (job_url <$> committed (conn w)) ∧
  ∃ s', Part2.DatabaseManager.bulk_insert_jobs 20
          (Part2.JobScraper.harvest Html.urljoin Sample.session Part2.target_url) w =
          (Ret 0, mkWorld (mkConn (committed (conn w)) None s') (log w)).
Proof.
  intros w.
  assert (reachable w) as Hw by (apply reachable_phase1, reachable_setup).
  split.
  - exact (proj1 (job_url_unique_when_reachable w Hw)).
  - refine (proj2 (proj2 (job_url_unique_when_reachable w Hw)) 20 _ _).
    apply (bool_decide_unpack _). vm_compute. exact I.
Defined.

(** ** The fields of a harvested record *)

Lemma dict_get_literal (t c l u s src : option string) :
  let j : Dict :=
    <["job_title" := t]> (<["company_name" := c]> (<["location" := l]>
    (<["job_url" := u]> (<["salary_info" := s]> (<["source_site" := src]> ∅))))) in
  dict_get j "job_title" = t ∧ dict_get j "company_name" = c ∧
  dict_get j "location" = l ∧ dict_get j "job_url" = u ∧
  dict_get j "salary_info" = s ∧ dict_get j "source_site" = src.
Proof.
  intros j. pose proof (job_tuple_literal t c l u s src) as H. fold j in H.
  unfold Part2.DatabaseManager.job_tuple in H. by simplify_eq.
Qed.

Lemma or_truthy a b : Py.truthy (Py.or a b) = Py.truthy a || Py.truthy b.
Proof. unfold Py.or. by destruct (Py.truthy a) eqn:Ha. Qed.

(** C7 (title and company: primary selector, legacy fallback, discard).
    For a list item in which a job link was found: the title is what the
    primary selector yields when that is a non-empty text, and what the
    legacy selector yields otherwise; likewise the company.  The item is
    left out of the result exactly when both selectors yield nothing for
    the title or both yield nothing for the company; a record that is
    produced carries that title and company.  An item with only the
    legacy markup yields a record with the legacy texts. *)
Theorem scrape_item_title_company {Tag : Type} `{!Part2.Soup Tag}
    (urljoin : string → string → string) (item : Tag) (job_path : string) :
  Part2.JobScraper._find_job_link item = Some job_path →
  let primary_title := Part2.JobScraper._extract_text item "h4.new-listing__header__title" in
  let legacy_title := Part2.JobScraper._extract_text item "span.title" in
  let primary_company := Part2.JobScraper._extract_text item "p.new-listing__company-name" in
  let legacy_company := Part2.JobScraper._extract_text item "span.company" in
  Part2.JobScraper.title_of item =
    (if Py.truthy primary_title then primary_title else legacy_title) ∧
  Part2.JobScraper.company_of item =
    (if Py.truthy primary_company then primary_company else legacy_company) ∧
  (Part2.JobScraper.scrape_item urljoin item = None ↔
     (Py.truthy primary_title = false ∧ Py.truthy legacy_title = false) ∨
     (Py.truthy primary_company = false ∧ Py.truthy legacy_company = false)) ∧
  (∀ j, Part2.JobScraper.scrape_item urljoin item = Some j →
     dict_get j "job_title" = Part2.JobScraper.title_of item ∧
     dict_get j "company_name" = Part2.JobScraper.company_of item ∧
     dict_get j "job_url" = Some (urljoin Part2.JobScraper.base_url job_path)) ∧
  (Part2.select_one item "h4.new-listing__header__title" = None →
   Part2.select_one item "p.new-listing__company-name" = None →
   Py.truthy legacy_title = true → Py.truthy legacy_company = true →
   ∃ j, Part2.JobScraper.scrape_item urljoin item = Some j ∧
        dict_get j "job_title" = legacy_title ∧
        dict_get j "company_name" = legacy_company).
Proof.
  intros Hlink t1 t2 c1 c2. rewrite scrape_item_unfold, Hlink.
  unfold Part2.JobScraper.title_of, Part2.JobScraper.company_of.
  fold t1 t2 c1 c2. rewrite !or_truthy.
  split_and!; [done|done| | |].
  - destruct (Py.truthy t1), (Py.truthy t2), (Py.truthy c1), (Py.truthy c2); simpl;
      (split; [intros ?; first [done|by left|by right]|intros [[? ?]|[? ?]]; done]).
  - intros j Hj. destruct (_ && _); [|done]. simplify_eq.
    match goal with |- context [dict_get ?d] =>
      pose proof (dict_get_literal (Py.or t1 t2) (Py.or c1 c2)
        (Py.or (Part2.JobScraper.location_of item) (Some "Remote"))
        (Some (urljoin Part2.JobScraper.base_url job_path))
        (Part2.JobScraper._find_salary item) (Some "WeWorkRemotely")) as Hd end.
    simpl in Hd. by destruct_and!.
  - intros Hsel1 Hsel2 Ht2 Hc2.
    assert (t1 = None) as Ht1 by (unfold t1, Part2.JobScraper._extract_text; by rewrite Hsel1).
    assert (c1 = None) as Hc1 by (unfold c1, Part2.JobScraper._extract_text; by rewrite Hsel2).
    rewrite Ht1, Hc1, Ht2, Hc2. simpl. eexists. split; [done|].
    pose proof (dict_get_literal (Py.or None t2) (Py.or None c2)
        (Py.or (Part2.JobScraper.location_of item) (Some "Remote"))
        (Some (urljoin Part2.JobScraper.base_url job_path))
        (Part2.JobScraper._find_salary item) (Some "WeWorkRemotely")) as Hd.
    simpl in Hd. by destruct_and!.
Qed.

(** The third item of the sample page has the legacy markup only. *)
Lemma scrape_item_title_company_witness :
  ∃ j, Part2.JobScraper.scrape_item Html.urljoin Sample.item_C = Some j ∧
       dict_get j "job_title" = Some "Developer" ∧
       dict_get j "company_name" = Some "Initech".
Proof.
  refine (proj2 (proj2 (proj2 (proj2
    (scrape_item_title_company Html.urljoin Sample.item_C "/remote-jobs/initech-developer" _))))
    _ _ _ _); vm_compute; reflexivity.
Defined.

(** C8 (the location defaults to "Remote").  For a list item for which
    both the primary and the legacy location selector yield nothing:
    whether a record is produced is decided by the job link, the title
    and the company alone; a record that is produced has the string
    "Remote" as its location; and an item with a job link, a title and a
    company does produce its record. *)
Theorem scrape_item_location_default {Tag : Type} `{!Part2.Soup Tag}
    (urljoin : string → string → string) (item : Tag) :
  Py.truthy (Part2.JobScraper._extract_text item "p.new-listing__company-headquarters") = false →
  Py.truthy (Part2.JobScraper._extract_text item "span.region") = false →
  (is_Some (Part2.JobScraper.scrape_item urljoin item) ↔
     is_Some (Part2.JobScraper._find_job_link item) ∧
     Py.truthy (Part2.JobScraper.title_of item) = true ∧
     Py.truthy (Part2.JobScraper.company_of item) = true) ∧
  (∀ j, Part2.JobScraper.scrape_item urljoin item = Some j →
        dict_get j "location" = Some "Remote") ∧
  (is_Some (Part2.JobScraper._find_job_link item) →
   Py.truthy (Part2.JobScraper.title_of item) = true →
   Py.truthy (Part2.JobScraper.company_of item) = true →
   ∃ j, Part2.JobScraper.scrape_item urljoin item = Some j ∧
        dict_get j "location" = Some "Remote").
Proof.
  intros Hl1 Hl2.
  assert (Py.or (Part2.JobScraper.location_of item) (Some "Remote") = Some "Remote") as Hloc.
  { unfold Py.or at 1. unfold Part2.JobScraper.location_of at 1.
    by rewrite or_truthy, Hl1, Hl2. }
  assert (∀ j, Part2.JobScraper.scrape_item urljoin item = Some j →
               dict_get j "location" = Some "Remote") as Hrec.
  { intros j. rewrite scrape_item_unfold.
    destruct (Part2.JobScraper._find_job_link item) as [job_path|]; [|done].
    destruct (_ && _); [|done]. intros [= <-].
    pose proof (dict_get_literal (Part2.JobScraper.title_of item)
        (Part2.JobScraper.company_of item)
        (Py.or (Part2.JobScraper.location_of item) (Some "Remote"))
        (Some (urljoin Part2.JobScraper.base_url job_path))
        (Part2.JobScraper._find_salary item) (Some "WeWorkRemotely")) as Hd.
    simpl in Hd. destruct Hd as (_ & _ & -> & _). done. }
  assert (is_Some (Part2.JobScraper.scrape_item urljoin item) ↔
     is_Some (Part2.JobScraper._find_job_link item) ∧
     Py.truthy (Part2.JobScraper.title_of item) = true ∧
     Py.truthy (Part2.JobScraper.company_of item) = true) as Hiff.
  { rewrite scrape_item_unfold.
    destruct (Part2.JobScraper._find_job_link item) as [job_path|].
    - destruct (Py.truthy (Part2.JobScraper.title_of item)),
               (Py.truthy (Part2.JobScraper.company_of item)); simpl;
        (split; [intros [? ?]; by repeat split|intros (? & ? & ?); first [done|by eexists]]).
    - split; [by intros [? ?]|by intros ([? ?] & _)]. }
  split_and!; [done..|].
  intros Hlink Ht Hc.
  destruct (proj2 Hiff (conj Hlink (conj Ht Hc))) as [j Hj]. exists j. auto.
Qed.

(** The third item of the sample page has no location markup. *)
Lemma scrape_item_location_default_witness :
  ∃ j, Part2.JobScraper.scrape_item Html.urljoin Sample.item_C = Some j ∧
       dict_get j "location" = Some "Remote".
Proof.
  refine (proj2 (proj2 (scrape_item_location_default Html.urljoin Sample.item_C _ _)) _ _ _);
    try (vm_compute; reflexivity).
  eexists. vm_compute. reflexivity.
Defined.

(** Whatever the item, a record that is produced has a non-empty location. *)
Lemma scrape_item_location_truthy {Tag : Type} `{!Part2.Soup Tag}
    (urljoin : string → string → string) (item : Tag) (j : Dict) :
  Part2.JobScraper.scrape_item urljoin item = Some j →
  Py.truthy (dict_get j "location") = true.
Proof.
  rewrite scrape_item_unfold. destruct (Part2.JobScraper._find_job_link item); [|done].
  destruct (_ && _); [|done]. intros [= <-].
  pose proof (dict_get_literal (Part2.JobScraper.title_of item)
      (Part2.JobScraper.company_of item)
      (Py.or (Part2.JobScraper.location_of item) (Some "Remote"))
      (Some (urljoin Part2.JobScraper.base_url s))
      (Part2.JobScraper._find_salary item) (Some "WeWorkRemotely")) as Hd.
  simpl in Hd. destruct Hd as (_ & _ & -> & _).
  rewrite or_truthy. by rewrite orb_true_r.
Qed.

(** * Further properties *)

(** ** The setup script *)

Section setup.
Import Part1.

Ltac setup_cases s Hdb :=
  destruct s as [a c dbs]; unfold setup, ensure_database, ensure_table; simpl;
  destruct a; simpl;
  [destruct (dbs !! DB_TO_CREATE) as [[t|]|] eqn:Hdb; simpl;
   [| |destruct c; simpl];
   repeat first [rewrite Hdb | rewrite lookup_insert_eq | progress simpl]|].

(** X22 (setup can be run again).  After a run that completed, another
    run completes and leaves the server as it is. *)
Theorem setup_idempotent (s : Server) :
  (setup s).1 = Completed →
  setup (setup s).2 = (Completed, (setup s).2).
Proof. setup_cases s Hdb; done. Qed.

Lemma setup_idempotent_witness :
  setup (setup Sample.new_server).2 = (Completed, (setup Sample.new_server).2).
Proof. exact (setup_idempotent Sample.new_server eq_refl). Defined.

(** X23 (setup keeps what is there).  When the table exists, the script
    leaves the whole server as it is, whatever else happens; and it never
    touches a database other than its own. *)
Theorem setup_keeps_existing (s : Server) :
  (∀ t, databases s !! DB_TO_CREATE = Some (Some t) → (setup s).2 = s) ∧
  (∀ name, name ≠ DB_TO_CREATE →
           databases (setup s).2 !! name = databases s !! name).
Proof.
  setup_cases s Hdb; (split; [done|]); intros name Hname;
    by rewrite ?lookup_insert_ne.
Qed.

Lemma setup_keeps_existing_witness :
  (setup Sample.used_server).2 = Sample.used_server.
Proof.
  refine (proj1 (setup_keeps_existing Sample.used_server) _ _). reflexivity.
Defined.



End setup.

(** ** More on bulk insertion *)

Section bulk_more.
Import Pg.

Lemma varchar_length n v v' :
  varchar n v = inr v' → (String.length (default "" v') ≤ n)%nat.
Proof.
  destruct v as [s|]; simpl; [|intros [= <-]; simpl; lia].
  case_bool_decide; [by intros [= <-]|].
  destruct (Py.all_chars _ _); [|done]. intros [= <-]. simpl. apply take_length_le.
Qed.

Lemma coerce_within v v' : coerce v = inr v' → fits v'.
Proof.
  destruct v as [[[[[t c] l] u] s] src]. unfold coerce.
  destruct (varchar 255 t) eqn:Ht, (varchar 255 c) eqn:Hc, (varchar 255 l) eqn:Hl,
    (varchar 512 u) eqn:Hu, (varchar 100 src) eqn:Hsrc; try done.
  intros [= <-]. unfold fits. eauto 10 using varchar_length.
Qed.

Lemma insert_values_new now vs rows s n rows' s' n' :
  insert_values OnConflictDoNothing now vs (rows, s, n) = inr (rows', s', n') →
  ∃ new, rows' = rows ++ new ∧ (length new ≤ length vs)%nat ∧ s ≤ s' ∧
         Forall (new_row now s s') new ∧ NoDup (job_id <$> new).
Proof.
  revert rows s n. induction vs as [|v vs IH]; intros rows s n; simpl.
  { intros [= <- <- <-]. exists []. rewrite app_nil_r.
    split; [done|]. split; [simpl; lia|]. split; [lia|]. split; constructor. }
  unfold insert_row. destruct (coerce v) as [e|v'] eqn:Hv; [done|].
  apply coerce_within in Hv. destruct v' as [[[[[t c] l] u] sal] src].
  destruct (url_conflict u rows).
  - intros (new & -> & Hlen & Hs & Hnew & Hnodup)%IH.
    exists new. split_and!; [done|lia|lia| |done].
    eapply Forall_impl; [exact Hnew|]. unfold new_row. intros r ?. destruct_and!.
    split_and!; try done; lia.
  - intros (new & -> & Hlen & Hs & Hnew & Hnodup)%IH.
    eexists (_ :: new). rewrite <-app_assoc. simpl.
    split_and!; [done|lia|lia| |].
    + constructor.
      * unfold new_row. simpl. split; [done|]. split; [done|]. split; [lia|]. exact Hv.
      * eapply Forall_impl; [exact Hnew|]. unfold new_row. intros r ?. destruct_and!.
        split_and!; try done; lia.
    + constructor; [|done]. intros (r & Hid & Hr)%list_elem_of_fmap.
      rewrite Forall_forall in Hnew. destruct (Hnew r Hr) as (_ & _ & ? & _).
      simpl in Hid. lia.
Qed.

Lemma insert_values_nonnull_urls now vs rows s n rows' s' n' :
  insert_values OnConflictDoNothing now vs (rows, s, n) = inr (rows', s', n') →
  NoDup (omap job_url rows) → NoDup (omap job_url rows').
Proof.
  revert rows s n. induction vs as [|v vs IH]; intros rows s n; simpl.
  { by intros [= <- <- <-]. }
  unfold insert_row. destruct (coerce v) as [e|[[[[[t c] l] u] sal] src]]; [done|].
  destruct (url_conflict u rows) eqn:Hconf; intros Hrun Hrows; [by eapply IH|].
  eapply IH; [exact Hrun|]. rewrite omap_app. simpl.
  destruct u as [u|]; simpl; [|by rewrite app_nil_r].
  apply NoDup_app. split_and!; [done| |apply NoDup_singleton].
  intros x Hx ->%list_elem_of_singleton.
  unfold url_conflict in Hconf. apply bool_decide_eq_false in Hconf. apply Hconf.
  apply list_elem_of_omap in Hx as (r & Hr & Hurl).
  apply list_elem_of_fmap. by exists r.
Qed.

(** What [bulk_insert_jobs] leaves behind on a connection without an
    open transaction: the table as it was, or the table one statement
    over all the candidates makes of it. *)
Lemma bulk_insert_jobs_cases now (jobs : list Dict) w :
  txn (conn w) = None →
  let run := Part2.DatabaseManager.bulk_insert_jobs now jobs w in
  (run.1 = Ret 0 ∧ committed (conn run.2) = committed (conn w)) ∨
  (∃ rows' s' n0 n,
     insert_values OnConflictDoNothing now (Part2.DatabaseManager.job_tuple <$> jobs)
       (committed (conn w), id_seq (conn w), 0) = inr (rows', s', n0) ∧
     run = (Ret n, mkWorld (mkConn rows' None s') (log w))).
Proof.
  intros Htxn run. subst run. destruct (decide (jobs = [])) as [->|Hne]; [by left|].
  pose proof (bulk_insert_jobs_run now jobs w Hne) as R.
  unfold view in R. rewrite Htxn in R. cbn [default] in R.
  pose proof (insert_pages_concat now
    (Psycopg2.paginate 100 (Part2.DatabaseManager.job_tuple <$> jobs))
    (committed (conn w)) (id_seq (conn w)) (-1)) as H.
  rewrite paginate_concat in H.
  destruct (Psycopg2.insert_pages now _ _) as [e|[[rows' s'] n]].
  - destruct R as [s' ->]. by left.
  - destruct (insert_values _ _ _ _) as [e|[[rows2 s2] n2]]; [done|].
    destruct H as [-> ->]. right. by eexists _, _, _, _.
Qed.

Lemma execute_pages_seq_mono now pages rc w :
  id_seq (conn w) ≤ id_seq (conn (Psycopg2.execute_pages now pages rc w).2).
Proof.
  revert rc w. induction pages as [|page pages IH]; intros rc w; [done|].
  rewrite execute_pages_cons.
  destruct (insert_values _ _ page _) as [e|[[rows' s'] n]] eqn:Hv; [done|].
  apply insert_values_ok in Hv as (_ & _ & _ & ->).
  etrans; [|apply IH]. simpl. lia.
Qed.

Lemma bulk_insert_jobs_seq_mono now (jobs : list Dict) w :
  id_seq (conn w) ≤ id_seq (conn (Part2.DatabaseManager.bulk_insert_jobs now jobs w).2).
Proof.
  unfold Part2.DatabaseManager.bulk_insert_jobs, Psycopg2.execute_values.
  case_bool_decide; [done|]. eff_unfold.
  pose proof (execute_pages_seq_mono now
    (Psycopg2.paginate 100 (Part2.DatabaseManager.job_tuple <$> jobs)) (-1) w) as Hmono.
  destruct (Psycopg2.execute_pages _ _ _ _) as [[n|[e|]] w1]; done.
Qed.

(** X1 (bulk insertion only appends).  On a connection without an open
    transaction the committed table after the call is the table before it
    followed by new rows, at most one per candidate; each new row has no
    description, the timestamp of the transaction, texts within the
    column limits and an id drawn from the sequence. *)
Theorem bulk_insert_jobs_appends now (jobs : list Dict) w :
  txn (conn w) = None →
  let run := Part2.DatabaseManager.bulk_insert_jobs now jobs w in
  ∃ new, committed (conn run.2) = committed (conn w) ++ new ∧
         (length new ≤ length jobs)%nat ∧
         Forall (λ r, job_description r = None ∧ scraped_at r = now ∧
                      id_seq (conn w) ≤ job_id r < id_seq (conn run.2) ∧
                      within_limits r) new.
Proof.
  intros Htxn run.
  destruct (bulk_insert_jobs_cases now jobs w Htxn) as [[_ Hsame]|(rows' & s' & n0 & n & Hv & Hrun)].
  - exists []. fold run in Hsame. rewrite app_nil_r. split_and!; [done|simpl; lia|constructor].
  - fold run in Hrun. rewrite Hrun. simpl.
    apply insert_values_new in Hv as (new & -> & Hlen & _ & Hnew & _).
    exists new. rewrite length_fmap in Hlen. done.
Qed.

Lemma bulk_insert_jobs_appends_witness :
  ∃ new, committed (conn (Part2.DatabaseManager.bulk_insert_jobs 5
                            (Sample.numbered_jobs 3) Sample.backlog).2) =
           committed (conn Sample.backlog) ++ new ∧ length new = 3%nat.
Proof.
  destruct (bulk_insert_jobs_appends 5 (Sample.numbered_jobs 3) Sample.backlog eq_refl)
    as (new & Hnew & _).
  exists new. split; [exact Hnew|].
  assert (length (committed (conn (Part2.DatabaseManager.bulk_insert_jobs 5
            (Sample.numbered_jobs 3) Sample.backlog).2)) = 9%nat) as Hlen by (by vm_compute).
  rewrite Hnew, length_app in Hlen. simpl in Hlen. lia.
Defined.

(** X2 (non-null urls stay unique, whatever the batch).  For candidates
    of any shape, with or without the key ['job_url'], and also when the
    same url occurs twice in the batch: if no url occurs in two rows of
    the table before the call, none does after it. *)
Theorem bulk_insert_jobs_keeps_urls_unique now (jobs : list Dict) w :
  txn (conn w) = None →
  NoDup (omap job_url (committed (conn w))) →
  NoDup (omap job_url
           (committed (conn (Part2.DatabaseManager.bulk_insert_jobs now jobs w).2))).
Proof.
  intros Htxn Hrows.
  destruct (bulk_insert_jobs_cases now jobs w Htxn) as [[_ ->]|(rows' & s' & n0 & n & Hv & ->)];
    [done|].
  simpl. by eapply insert_values_nonnull_urls.
Qed.

Lemma bulk_insert_jobs_keeps_urls_unique_witness :
  NoDup (omap job_url (committed (conn (Part2.DatabaseManager.bulk_insert_jobs 5
           (Sample.numbered_jobs 3 ++ Sample.numbered_jobs 2) Sample.empty_db).2))) ∧
  length (committed (conn (Part2.DatabaseManager.bulk_insert_jobs 5
           (Sample.numbered_jobs 3 ++ Sample.numbered_jobs 2) Sample.empty_db).2)) = 3%nat.
Proof.
  split; [|by vm_compute].
  apply (bulk_insert_jobs_keeps_urls_unique 5 _ Sample.empty_db eq_refl). constructor.
Defined.

(** X3 (a candidate without a url).  A candidate that has no ['job_url']
    (the key is missing or its value is [None]) and whose texts fit is
    inserted with a null url every time it is offered: the call returns
    1 and appends the row, whatever the table holds. *)
Theorem bulk_insert_jobs_without_url now (j : Dict) w :
  txn (conn w) = None →
  dict_get j "job_url" = None →
  fits (Part2.DatabaseManager.job_tuple j) →
  Part2.DatabaseManager.bulk_insert_jobs now [j] w =
    (Ret 1,
     mkWorld (mkConn (committed (conn w) ++
                        [mkRow (id_seq (conn w)) (dict_get j "job_title")
                               (dict_get j "company_name") (dict_get j "location") None
                               (dict_get j "salary_info") None (dict_get j "source_site") now])
                     None (id_seq (conn w) + 1))
             (log w)).
Proof.
  intros Htxn Hurl Hfits.
  pose proof (bulk_insert_jobs_run now [j] w ltac:(done)) as R.
  unfold view in R. rewrite Htxn in R. cbn [default] in R.
  simpl in R. unfold Psycopg2.paginate in R. simpl in R.
  unfold insert_row in R. rewrite coerce_fits in R by done.
  unfold Part2.DatabaseManager.job_tuple in R. rewrite Hurl in R. simpl in R.
  exact R.
Qed.

Lemma bulk_insert_jobs_without_url_witness :
  let run1 := Part2.DatabaseManager.bulk_insert_jobs 5 [Sample.no_url_job] Sample.empty_db in
  let run2 := Part2.DatabaseManager.bulk_insert_jobs 6 [Sample.no_url_job] run1.2 in
  run2.1 = Ret 1 ∧ length (committed (conn run2.2)) = 2%nat.
Proof.
  intros run1 run2. subst run2.
  rewrite (bulk_insert_jobs_without_url 6 Sample.no_url_job run1.2);
    [|vm_compute; reflexivity|vm_compute; reflexivity
     |apply (bool_decide_unpack _); vm_compute; exact I].
  split; [done|by vm_compute].
Defined.

End bulk_more.

(** ** More on phase 1 *)

Lemma insert_pages_count now pages rows s rc rows' s' n :
  Psycopg2.insert_pages now pages (rows, s, rc) = inr (rows', s', n) →
  pages ≠ [] →
  ∃ new, rows' = rows ++ new ∧ 0 ≤ n ≤ Z.of_nat (length new).
Proof.
  revert rows s rc. induction pages as [|page pages IH]; intros rows s rc Hrun Hne; [done|].
  cbn [Psycopg2.insert_pages fst snd] in Hrun.
  destruct (Pg.insert_values _ _ page _) as [e|[[rows1 s1] n1]] eqn:Hv; [done|].
  apply insert_values_ok in Hv as (new1 & -> & -> & ->).
  destruct pages as [|page' pages].
  { simpl in Hrun. simplify_eq. exists new1. split; [done|lia]. }
  apply IH in Hrun as (new2 & -> & Hn); [|done].
  exists (new1 ++ new2). rewrite <-app_assoc, length_app. split; [done|lia].
Qed.

(** X4 (the count never overstates).  On a connection without an open
    transaction the call returns a count between 0 and the number of rows
    it added to the table. *)
Theorem bulk_insert_jobs_count_bound now (jobs : list Dict) w :
  txn (conn w) = None →
  let run := Part2.DatabaseManager.bulk_insert_jobs now jobs w in
  ∃ n new, run.1 = Ret n ∧
           committed (conn run.2) = committed (conn w) ++ new ∧
           0 ≤ n ≤ Z.of_nat (length new).
Proof.
  intros Htxn run. subst run. destruct (decide (jobs = [])) as [->|Hne].
  { exists 0, []. by rewrite app_nil_r. }
  pose proof (bulk_insert_jobs_run now jobs w Hne) as R.
  unfold view in R. rewrite Htxn in R. cbn [default] in R.
  destruct (Psycopg2.insert_pages now _ _) as [e|[[rows' s'] n]] eqn:Hp.
  - destruct R as [s' ->]. exists 0, []. by rewrite app_nil_r.
  - rewrite R. apply insert_pages_count in Hp as (new & -> & Hn).
    + by exists n, new.
    + apply paginate_nonempty. by destruct jobs.
Qed.

Lemma bulk_insert_jobs_count_bound_witness :
  ∃ n new, (Part2.DatabaseManager.bulk_insert_jobs 5 (Sample.numbered_jobs 101)
              Sample.empty_db).1 = Ret n ∧
           committed (conn (Part2.DatabaseManager.bulk_insert_jobs 5
              (Sample.numbered_jobs 101) Sample.empty_db).2) = [] ++ new ∧
           0 ≤ n ≤ Z.of_nat (length new).
Proof. exact (bulk_insert_jobs_count_bound 5 (Sample.numbered_jobs 101) Sample.empty_db eq_refl). Defined.

Section phase1_more.
Import Part2 Part2.JobScraper.
Context {Tag : Type} `{!Soup Tag}.
Variable urljoin : string → string → string.

Lemma main_appends (session : string → http_result Tag) (now : Z) (w : World) :
  let run := main urljoin session now w in
  (∃ r, run.1 = Ret r) ∧
  txn (conn run.2) = None ∧
  id_seq (conn w) ≤ id_seq (conn run.2) ∧
  ∃ new, committed (conn run.2) = committed (conn w) ++ new ∧
         Forall (new_row now (id_seq (conn w)) (id_seq (conn run.2))) new ∧
         NoDup (job_id <$> new).
Proof.
  intros run. subst run. destruct (main_run urljoin session now w) as (l1 & l2 & ->).
  set (jobs := harvest urljoin session target_url).
  case_bool_decide as Hjobs.
  { cbn [fst snd conn committed txn id_seq]. split_and!; [by eexists|done|lia|].
    exists []. rewrite app_nil_r. split_and!; [done|constructor..]. }
  set (w1 := mkWorld (mkConn (committed (conn w)) None (id_seq (conn w))) (log w ++ l1)).
  pose proof (bulk_insert_jobs_seq_mono now jobs w1) as Hmono.
  destruct (bulk_insert_jobs_cases now jobs w1 eq_refl)
    as [[Hret Hsame]|(rows' & s' & n0 & n & Hv & Hrun)];
    cbn [fst snd conn committed txn id_seq] in *.
  - rewrite Hret, Hsame. split_and!; [by eexists|done|done|].
    exists []. rewrite app_nil_r. split_and!; [done|constructor..].
  - rewrite Hrun in *. cbn [fst snd conn committed txn id_seq] in *.
    apply insert_values_new in Hv as (new & -> & _ & _ & Hnew & Hnodup).
    split_and!; [by eexists|done|done|]. by exists new.
Qed.


(** X6 (a request that fails).  When the request for the listing page
    fails, [main] returns before its summary, the table and the sequence
    are as they were, and the log has gained the error of the request and
    the warning that no jobs were found, between the two records of the
    connection. *)
Theorem phase1_request_failure (session : string → http_result Tag) (now : Z) (w : World) :
  session target_url = RequestFailed →
  main urljoin session now w =
    (Ret None,
     mkWorld (mkConn (committed (conn w)) None (id_seq (conn w)))
       (log w ++
        [mkLog INFO "Database connection established." [];
         mkLog INFO "Scraping jobs from: {url}" [ArgStr (Some target_url)];
         mkLog ERROR "Request to {url} failed: {e}"
               [ArgStr (Some target_url); ArgExn RequestException];
         mkLog WARNING "No jobs were found." [];
         mkLog INFO "Database connection closed." []])).
Proof.
  intros Hfail. unfold main, with_DatabaseManager, scrape_weworkremotely, session_get.
  rewrite Hfail. eff_unfold. rewrite bool_decide_eq_true_2 by done.
  cbn [conn log committed id_seq]. by rewrite <-!app_assoc.
Qed.


End phase1_more.

Lemma phase1_request_failure_witness :
  (Part2.main Html.urljoin Sample.offline 5 Sample.backlog).1 = Ret None ∧
  committed (conn (Part2.main Html.urljoin Sample.offline 5 Sample.backlog).2) =
    committed (conn Sample.backlog).
Proof.
  rewrite (phase1_request_failure Html.urljoin Sample.offline 5 Sample.backlog eq_refl).
  by split.
Defined.

(** ** The link and the salary of an item *)

Section strings_more.
Variable p : ascii → bool.

Lemma lstrip_by_head s :
  match Py.lstrip_by p s with
  | EmptyString => True
  | String c _ => p c = false
  end.
Proof. induction s as [|c s IH]; simpl; [done|]. by destruct (p c) eqn:Hc. Qed.

Lemma rstrip_by_idem s : Py.rstrip_by p (Py.rstrip_by p s) = Py.rstrip_by p s.
Proof.
  induction s as [|c s IH]; simpl; [done|].
  destruct (Py.rstrip_by p s) as [|c' r] eqn:Hr.
  - destruct (p c) eqn:Hc; simpl; [done|]. by rewrite Hc.
  - change (Py.rstrip_by p (String c (String c' r)) = String c (String c' r)).
    change (match Py.rstrip_by p (String c' r) with
            | EmptyString => if p c then EmptyString else String c EmptyString
            | String _ _ as r0 => String c r0
            end = String c (String c' r)).
    by rewrite IH.
Qed.

Lemma strip_by_idem s : Py.strip_by p (Py.strip_by p s) = Py.strip_by p s.
Proof.
  unfold Py.strip_by. pose proof (lstrip_by_head s) as Hhead.
  destruct (Py.lstrip_by p s) as [|c t]; [done|].
  assert (∃ r, Py.rstrip_by p (String c t) = String c r) as [r Hr].
  { simpl. destruct (Py.rstrip_by p t); [rewrite Hhead|]; by eexists. }
  rewrite Hr. cbn [Py.lstrip_by]. rewrite Hhead, <-Hr. apply rstrip_by_idem.
Qed.
End strings_more.

Section item_more.
Import Part2 Part2.JobScraper.
Context {Tag : Type} `{!Soup Tag}.

Lemma first_job_link_split links :
  match first_job_link links with
  | Some job_path =>
      ∃ before after, links = before ++ job_path :: after ∧
        Py.contains "/remote-jobs/" job_path = true ∧
        Forall (λ h, Py.contains "/remote-jobs/" h = false) before
  | None => Forall (λ h, Py.contains "/remote-jobs/" h = false) links
  end.
Proof.
  induction links as [|link links IH]; simpl; [constructor|].
  destruct (Py.contains "/remote-jobs/" link) eqn:Hc.
  - exists [], links. by repeat split.
  - destruct (first_job_link links) as [job_path|].
    + destruct IH as (before & after & -> & Hp & Hbefore).
      exists (link :: before), after. split_and!; [done..|by constructor].
    + by constructor.
Qed.

(** X8 (the job link of an item).  [_find_job_link] returns the first
    [href] of the item's anchors that contains "/remote-jobs/": no anchor
    before it has one; and it returns [None] exactly when no anchor of
    the item has one. *)
Theorem find_job_link_first_match (item : Tag) :
  (∀ job_path, _find_job_link item = Some job_path →
     ∃ before after, find_all_href "a" item = before ++ job_path :: after ∧
       Py.contains "/remote-jobs/" job_path = true ∧
       Forall (λ h, Py.contains "/remote-jobs/" h = false) before) ∧
  (_find_job_link item = None ↔
     Forall (λ h, Py.contains "/remote-jobs/" h = false) (find_all_href "a" item)).
Proof.
  unfold _find_job_link. pose proof (first_job_link_split (find_all_href "a" item)) as Hsplit.
  destruct (first_job_link (find_all_href "a" item)) as [job_path|].
  - split; [by intros ? [= <-]|]. split; [done|].
    destruct Hsplit as (before & after & -> & Hp & _).
    intros (_ & Hafter)%Forall_app. apply Forall_cons in Hafter as [? _]. congruence.
  - split; [done|]. by split.
Qed.

Lemma first_salary_split categories :
  match first_salary categories with
  | Some salary =>
      ∃ before category after, categories = before ++ category :: after ∧
        salary = Py.strip (get_text false category) ∧
        Py.contains "$" (get_text false category) ||
          Py.contains "USD" (get_text false category) = true ∧
        Forall (λ c, Py.contains "$" (get_text false c) ||
                     Py.contains "USD" (get_text false c) = false) before
  | None => Forall (λ c, Py.contains "$" (get_text false c) ||
                         Py.contains "USD" (get_text false c) = false) categories
  end.
Proof.
  induction categories as [|category categories IH]; simpl; [constructor|].
  destruct (Py.contains "$" (get_text false category) ||
            Py.contains "USD" (get_text false category)) eqn:Hc.
  - exists [], category, categories. by repeat split.
  - destruct (first_salary categories) as [salary|].
    + destruct IH as (before & c & after & -> & Hs & Hp & Hbefore).
      exists (category :: before), c, after. split_and!; [done..|by constructor].
    + by constructor.
Qed.

(** X9 (the salary of an item).  [_find_salary] returns [None] when the
    item has no categories container.  A salary it returns is the text,
    stripped of whitespace at both ends, of the first category entry that
    contains "$" or "USD"; stripping it again changes nothing. *)
Theorem find_salary_first_match (item : Tag) :
  (select_one item "div.new-listing__categories" = None → _find_salary item = None) ∧
  (∀ salary, _find_salary item = Some salary →
     Py.strip salary = salary ∧
     ∃ categories_div before category after,
       select_one item "div.new-listing__categories" = Some categories_div ∧
       select categories_div "p.new-listing__categories__category" =
         before ++ category :: after ∧
       salary = Py.strip (get_text false category) ∧
       Py.contains "$" (get_text false category) ||
         Py.contains "USD" (get_text false category) = true ∧
       Forall (λ c, Py.contains "$" (get_text false c) ||
                    Py.contains "USD" (get_text false c) = false) before).
Proof.
  unfold _find_salary. split; [by intros ->|].
  intros salary. destruct (select_one item "div.new-listing__categories") as [div|]; [|done].
  pose proof (first_salary_split (select div "p.new-listing__categories__category")) as Hsplit.
  intros Hs. rewrite Hs in Hsplit.
  destruct Hsplit as (before & category & after & Hcat & -> & Hp & Hbefore).
  split; [apply strip_by_idem|]. by exists div, before, category, after.
Qed.

End item_more.

Lemma find_salary_first_match_witness :
  Part2.JobScraper._find_salary Sample.item_A = Some "$100,000 or more USD" ∧
  Py.strip "$100,000 or more USD" = "$100,000 or more USD".
Proof.
  split; [by vm_compute|].
  refine (proj1 (proj2 (find_salary_first_match Sample.item_A) _ _)). by vm_compute.
Defined.

Lemma find_job_link_first_match_witness :
  ∃ before after,
    Part2.find_all_href "a" Sample.item_A =
      before ++ "/remote-jobs/acme-senior-engineer" :: after ∧
    Py.contains "/remote-jobs/" "/remote-jobs/acme-senior-engineer" = true ∧
    Forall (λ h, Py.contains "/remote-jobs/" h = false) before.
Proof.
  refine (proj1 (find_job_link_first_match Sample.item_A) _ _). by vm_compute.
Defined.

(** ** Invariants of the table *)

Lemma backfill_rows_ids driver ijs rows :
  job_id <$> Part3.backfill_rows driver ijs rows = job_id <$> rows.
Proof.
  unfold Part3.backfill_rows. rewrite <-list_fmap_compose. apply list_fmap_ext.
  intros i r _. simpl. by pose proof (backfill_row_same driver ijs r) as (-> & _).
Qed.

Lemma same_but_description_limits r r' :
  same_but_description r r' → within_limits r → within_limits r'.
Proof.
  unfold same_but_description, within_limits.
  intros (_ & -> & -> & -> & -> & -> & -> & _). done.
Qed.

(** The ids are as the sequence gave them, and the texts fit their
    columns, in every state the system reaches. *)
Lemma reachable_rows w :
  reachable w → ids_fresh (conn w) ∧ Forall within_limits (committed (conn w)).
Proof.
  induction 1 as [|Tag S urljoin session now w _ [[IHnodup IHlt] IHlim]
                  |driver w _ [[IHnodup IHlt] IHlim]].
  - repeat split; simpl; constructor.
  - destruct (main_appends urljoin session now w) as (_ & _ & Hseq & new & Hrows & Hnew & Hnodup).
    rewrite Forall_forall in Hnew. unfold ids_fresh. rewrite Hrows, fmap_app. split_and!.
    + apply NoDup_app. split_and!; [done| |done].
      intros i (r & -> & Hr)%list_elem_of_fmap (r' & Hid & Hr')%list_elem_of_fmap.
      rewrite Forall_forall in IHlt. specialize (IHlt r Hr).
      destruct (Hnew r' Hr') as (_ & _ & ? & _). lia.
    + apply Forall_app. split.
      * eapply Forall_impl; [exact IHlt|]. simpl. intros r ?. lia.
      * apply Forall_forall. intros r Hr. destruct (Hnew r Hr) as (_ & _ & ? & _). lia.
    + apply Forall_app. split; [done|].
      apply Forall_forall. intros r Hr. by destruct (Hnew r Hr) as (_ & _ & _ & ?).
  - destruct (backfill_main_run driver w) as [l ->]. cbn [snd conn committed id_seq].
    unfold ids_fresh. cbn [committed id_seq]. rewrite backfill_rows_ids. split_and!; [done| |].
    + unfold Part3.backfill_rows. apply Forall_fmap, Forall_forall. intros r Hr. simpl.
      rewrite Forall_forall in IHlt.
      pose proof (backfill_row_same driver (Part3.enumerate 1
        (Pg.jobs_to_update (committed (conn w)))) r) as (-> & _). by apply IHlt.
    + unfold Part3.backfill_rows. apply Forall_fmap, Forall_forall. intros r Hr. simpl.
      rewrite Forall_forall in IHlim.
      eapply same_but_description_limits; [apply backfill_row_same|by apply IHlim].
Qed.

(** X10 (ids are unique).  In every state the system reaches, no two
    rows have the same [id], and every [id] is below the next value of
    the sequence: the primary key never conflicts. *)
Theorem reachable_ids_unique (w : World) :
  reachable w →
  NoDup (job_id <$> committed (conn w)) ∧
  Forall (λ r, job_id r < id_seq (conn w)) (committed (conn w)).
Proof. by intros [? _]%reachable_rows. Qed.

Lemma reachable_ids_unique_witness :
  NoDup (job_id <$> committed (conn (Part2.main Html.urljoin Sample.session 10 after_setup).2)).
Proof.
  refine (proj1 (reachable_ids_unique _ _)). apply reachable_phase1, reachable_setup.
Defined.

(** X11 (stored texts fit their columns).  In every state the system
    reaches, the title, company and location of every row have at most
    255 characters, its url at most 512 and its source at most 100. *)
Theorem reachable_within_limits (w : World) :
  reachable w → Forall within_limits (committed (conn w)).
Proof. by intros [_ ?]%reachable_rows. Qed.

Lemma reachable_within_limits_witness :
  Forall within_limits
    (committed (conn (Part2.main Html.urljoin Sample.session 10 after_setup).2)).
Proof. apply reachable_within_limits, reachable_phase1, reachable_setup. Defined.

(** ** More on the query and on writing a description *)

(** X12 (a negative limit).  With a limit below 0 the query is refused by
    the server and [get_jobs_to_update] raises the database error; the
    table is as it was. *)
Theorem get_jobs_to_update_negative_limit (limit : Z) (w : World) :
  limit < 0 →
  Part3.DatabaseManager.get_jobs_to_update (Some limit) w =
    (Raise (Psycopg2Error InvalidRowCountInLimitClause),
     mkWorld (mkConn (committed (conn w)) (Some (view (conn w))) (id_seq (conn w))) (log w)).
Proof.
  intros Hlimit. rewrite get_jobs_to_update_run.
  rewrite bool_decide_eq_false_2 by lia. by rewrite bool_decide_eq_true_2.
Qed.

Lemma get_jobs_to_update_negative_limit_witness :
  (Part3.DatabaseManager.get_jobs_to_update (Some (-1)) Sample.backlog).1 =
    Raise (Psycopg2Error InvalidRowCountInLimitClause).
Proof.
  by rewrite (get_jobs_to_update_negative_limit (-1) Sample.backlog ltac:(lia)).
Defined.

(** X13 (a limit that does not bind).  With a limit that is at least the
    number of incomplete records the call returns what it returns without
    a limit. *)
Theorem get_jobs_to_update_large_limit (limit : Z) (w : World) :
  0 < limit →
  Z.of_nat (length (Pg.jobs_to_update (view (conn w)))) ≤ limit →
  Part3.DatabaseManager.get_jobs_to_update (Some limit) w =
    Part3.DatabaseManager.get_jobs_to_update None w.
Proof.
  intros Hpos Hlen. rewrite !get_jobs_to_update_run.
  rewrite bool_decide_eq_false_2 by lia. rewrite bool_decide_eq_false_2 by lia.
  rewrite take_ge by lia. done.
Qed.

Lemma get_jobs_to_update_large_limit_witness :
  Part3.DatabaseManager.get_jobs_to_update (Some 5) Sample.backlog =
    Part3.DatabaseManager.get_jobs_to_update None Sample.backlog.
Proof.
  apply get_jobs_to_update_large_limit; [lia|]. vm_compute. discriminate.
Defined.

(** X14 (an id that no row has).  [update_description] with an id that
    is in no row changes no row and raises nothing: it commits the table
    as the connection saw it. *)
Theorem update_description_unknown_id (i : Z) (description : string) (w : World) :
  (∀ r, r ∈ view (conn w) → job_id r ≠ i) →
  Part3.DatabaseManager.update_description i description w =
    (Ret (), mkWorld (mkConn (view (conn w)) None (id_seq (conn w))) (log w)).
Proof.
  intros Hid. rewrite update_description_run. do 3 f_equal.
  unfold Pg.update_job_description.
  rewrite <-(list_fmap_id (view (conn w))) at 2. apply list_fmap_ext.
  intros k r Hr%list_elem_of_lookup_2. rewrite bool_decide_eq_false_2; [done|]. by apply Hid.
Qed.

Lemma update_description_unknown_id_witness :
  committed (conn (Part3.DatabaseManager.update_description 99 "text" Sample.backlog).2) =
    committed (conn Sample.backlog).
Proof.
  rewrite (update_description_unknown_id 99 "text" Sample.backlog); [done|].
  apply (proj1 (Forall_forall _ _)). apply (bool_decide_unpack _). vm_compute. exact I.
Defined.

Lemma needs_description_set (text : string) r :
  Pg.needs_description (set_job_description (Some text) r) = Py.all_chars Pg.is_space text.
Proof. by rewrite needs_description_spaces. Qed.

(** X15 (a written description and the query).  After
    [update_description] wrote a text that is not made of spaces only, no
    record with that id is selected as incomplete.  After it wrote a text
    of spaces only, every record with that id is selected again. *)
Theorem update_description_then_query (i : Z) (description : string) (w : World) :
  let after := committed (conn (Part3.DatabaseManager.update_description i description w).2) in
  (Py.all_chars Pg.is_space description = false →
     ∀ u, (i, u) ∉ Pg.jobs_to_update after) ∧
  (Py.all_chars Pg.is_space description = true →
     ∀ r, r ∈ view (conn w) → job_id r = i →
          (i, job_url r) ∈ Pg.jobs_to_update after).
Proof.
  intros after. subst after. rewrite update_description_run. cbn [snd conn committed].
  unfold Pg.update_job_description. split.
  - intros Htext u (r' & Hr' & Hneeds & Hid)%elem_of_jobs_to_update.
    apply list_elem_of_fmap in Hr' as (r & -> & Hr).
    case_bool_decide as Hi.
    + rewrite needs_description_set in Hneeds. congruence.
    + unfold Pg.id_and_url in Hid. congruence.
  - intros Htext r Hr Hid. apply elem_of_jobs_to_update.
    exists (set_job_description (Some description) r). split_and!.
    + apply list_elem_of_fmap. exists r. by rewrite bool_decide_eq_true_2.
    + by rewrite needs_description_set.
    + unfold Pg.id_and_url. simpl. by rewrite Hid.
Qed.

Lemma update_description_then_query_witness :
  (∀ u, (1, u) ∉ Pg.jobs_to_update (committed (conn
     (Part3.DatabaseManager.update_description 1 "Full description." Sample.backlog).2))) ∧
  (4, job_url (Sample.job_row 4 (Some "Remote position."))) ∈
     Pg.jobs_to_update (committed (conn
       (Part3.DatabaseManager.update_description 4 "   " Sample.backlog).2)).
Proof.
  split.
  - refine (proj1 (update_description_then_query 1 "Full description." Sample.backlog) _).
    reflexivity.
  - refine (proj2 (update_description_then_query 4 "   " Sample.backlog) _ _ _ _).
    + reflexivity.
    + apply (bool_decide_unpack _). vm_compute. exact I.
    + reflexivity.
Defined.

(** X16 (the last description wins).  Two calls of [update_description]
    for the same id leave the table the second call alone would leave. *)
Theorem update_description_last_wins (i : Z) (first second : string) (w : World) :
  committed (conn (Part3.DatabaseManager.update_description i second
                     (Part3.DatabaseManager.update_description i first w).2).2) =
  committed (conn (Part3.DatabaseManager.update_description i second w).2).
Proof.
  rewrite !update_description_run. cbn [snd conn committed view txn default].
  unfold Pg.update_job_description. rewrite <-list_fmap_compose. apply list_fmap_ext.
  intros k r _. simpl. destruct (decide (job_id r = i)) as [Hi|Hi].
  - rewrite (bool_decide_eq_true_2 (job_id r = i)) by done. simpl.
    by rewrite bool_decide_eq_true_2.
  - rewrite (bool_decide_eq_false_2 (job_id r = i)) by done.
    by rewrite bool_decide_eq_false_2.
Qed.

(** ** More on the backfill *)

Section backfill_more.
Import Part3.

Lemma same_id_same_row (rows : list Row) r1 r2 :
  NoDup (job_id <$> rows) → r1 ∈ rows → r2 ∈ rows → job_id r1 = job_id r2 → r1 = r2.
Proof.
  intros Hnodup (i & Hi)%list_elem_of_lookup (j & Hj)%list_elem_of_lookup Hid.
  assert (i = j) as ->; [|congruence].
  eapply (NoDup_lookup _ _ _ _ Hnodup); rewrite list_lookup_fmap.
  - by rewrite Hi.
  - rewrite Hj. simpl. congruence.
Qed.

(** A record that is complete is not among the jobs, so no job writes
    to it. *)
Lemma backfill_row_complete driver (rows : list Row) r :
  NoDup (job_id <$> rows) → r ∈ rows → Pg.needs_description r = false →
  backfill_row driver (enumerate 1 (Pg.jobs_to_update rows)) r = r.
Proof.
  intros Hnodup Hr Hneeds. apply backfill_row_unchanged.
  intros [i job] (k & _ & Hk)%elem_of_enumerate Hid. exfalso. simpl in *.
  apply list_elem_of_lookup_2, elem_of_jobs_to_update in Hk as (r0 & Hr0 & Hneeds0 & <-).
  simpl in Hid. assert (r0 = r) as -> by by eapply same_id_same_row. congruence.
Qed.

Lemma main_nothing_to_do (driver : WebDriver) (w : World) :
  Pg.jobs_to_update (committed (conn w)) = [] →
  main driver w =
    (Ret None,
     mkWorld (mkConn (committed (conn w)) None (id_seq (conn w)))
       (log w ++
        [mkLog INFO "All jobs in the database already have a description. No work to do." []])).
Proof.
  intros Hjobs. unfold main, with_DatabaseManager.
  unfold mbind at 1. unfold Eff_bind at 1. rewrite get_jobs_to_update_run. unfold JOB_LIMIT.
  cbn [conn log view committed txn default id_seq]. rewrite Hjobs.
  rewrite bool_decide_eq_true_2 by done. by eff_unfold.
Qed.

(** X17 (nothing to do).  When no record is incomplete, [main] of
    part3_scrape_JD.py returns before its summary whatever the browser
    would do, and leaves the table and the sequence as they are. *)
Theorem backfill_nothing_to_do (driver : WebDriver) (w : World) :
  Pg.jobs_to_update (committed (conn w)) = [] →
  main driver w =
    (Ret None,
     mkWorld (mkConn (committed (conn w)) None (id_seq (conn w)))
       (log w ++
        [mkLog INFO "All jobs in the database already have a description. No work to do." []])).
Proof. apply main_nothing_to_do. Qed.

Lemma backfill_nothing_to_do_witness :
  (main Sample.driver after_setup).1 = Ret None.
Proof. by rewrite (backfill_nothing_to_do Sample.driver after_setup eq_refl). Defined.

(** X18 (the backfill writes descriptions only).  Whatever the browser
    does, [main] leaves a table with the same rows in the same order,
    each one equal to what it was in every column but [job_description];
    the sequence is not touched and no transaction stays open. *)
Theorem backfill_writes_descriptions_only (driver : WebDriver) (w : World) :
  let run := main driver w in
  Forall2 same_but_description (committed (conn w)) (committed (conn run.2)) ∧
  id_seq (conn run.2) = id_seq (conn w) ∧
  txn (conn run.2) = None.
Proof.
  intros run. subst run. destruct (backfill_main_run driver w) as [l ->].
  cbn [snd conn committed id_seq txn]. split_and!; [|done..].
  unfold backfill_rows. apply Forall2_fmap_r, Forall_Forall2_diag, Forall_forall.
  intros r _. apply backfill_row_same.
Qed.

(** X19 (complete records are left alone).  On a table with pairwise
    different ids, a record that has a description (one that is not made
    of spaces only) is the same row after [main] as before it. *)
Theorem backfill_keeps_complete_records (driver : WebDriver) (w : World) :
  NoDup (job_id <$> committed (conn w)) →
  Forall2 (λ r r', Pg.needs_description r = false → r' = r)
          (committed (conn w)) (committed (conn (main driver w).2)).
Proof.
  intros Hnodup. destruct (backfill_main_run driver w) as [l ->].
  cbn [snd conn committed]. unfold backfill_rows.
  apply Forall2_fmap_r, Forall_Forall2_diag, Forall_forall.
  intros r Hr Hneeds. simpl. by apply backfill_row_complete.
Qed.

Lemma backfill_keeps_complete_records_witness :
  Sample.job_row 4 (Some "Remote position.") ∈
    committed (conn (main Sample.good_driver Sample.backlog).2).
Proof.
  assert (NoDup (job_id <$> committed (conn Sample.backlog))) as Hids.
  { apply (bool_decide_unpack _). vm_compute. exact I. }
  pose proof (backfill_keeps_complete_records Sample.good_driver Sample.backlog Hids) as H.
  apply (Forall2_lookup_l _ _ _ 3%nat (Sample.job_row 4 (Some "Remote position."))) in H
    as (r' & Hr' & Hsame); [|reflexivity].
  rewrite Hsame in Hr' by reflexivity. by eapply list_elem_of_lookup_2.
Defined.

(** X20 (a run in which every fetch succeeds).  On a table with pairwise
    different ids, when the browser finds for every incomplete record a
    text that is not made of spaces only, no record is incomplete after
    [main], and the next run has nothing to do. *)
Theorem backfill_completes_the_backlog (driver next_driver : WebDriver) (w : World) :
  NoDup (job_id <$> committed (conn w)) →
  (∀ k job, Pg.jobs_to_update (committed (conn w)) !! k = Some job →
     ∃ text, fetched driver (S k) job = Some text ∧
             Py.all_chars Pg.is_space text = false) →
  let after := (main driver w).2 in
  Pg.jobs_to_update (committed (conn after)) = [] ∧
  (main next_driver after).1 = Ret None.
Proof.
  intros Hnodup Hall after.
  assert (Pg.jobs_to_update (committed (conn after)) = []) as Hdone.
  { subst after. destruct (backfill_main_run driver w) as [l ->]. cbn [snd conn committed].
    unfold Pg.jobs_to_update at 1.
    assert (filter (λ r, Pg.needs_description r = true)
              (backfill_rows driver (enumerate 1 (Pg.jobs_to_update (committed (conn w))))
                 (committed (conn w))) = []) as ->; [|done].
    apply elem_of_nil_inv. intros r' [Hneeds' Hr']%list_elem_of_filter.
    unfold backfill_rows in Hr'. apply list_elem_of_fmap in Hr' as (r & -> & Hr).
    destruct (Pg.needs_description r) eqn:Hneeds.
    - assert (Pg.id_and_url r ∈ Pg.jobs_to_update (committed (conn w))) as Hjob.
      { apply elem_of_jobs_to_update. by exists r. }
      apply list_elem_of_lookup in Hjob as [k Hk].
      destruct (Hall k _ Hk) as (text & Hf & Htext).
      assert (job_description (backfill_row driver
        (enumerate 1 (Pg.jobs_to_update (committed (conn w)))) r) = Some text) as Hd.
      { eapply (backfill_row_updated driver _ (S k, Pg.id_and_url r));
          [|by apply elem_of_enumerate; exists k|done|done|by intros ->].
        replace ((λ ij : nat * (Z * option string), ij.2.1) <$>
                 enumerate 1 (Pg.jobs_to_update (committed (conn w))))
          with (fst <$> (snd <$> enumerate 1 (Pg.jobs_to_update (committed (conn w)))))
          by (by rewrite <-list_fmap_compose).
        rewrite enumerate_snd. by apply jobs_to_update_NoDup. }
      rewrite needs_description_spaces in Hneeds'. unfold Pg.null_or_spaces in Hneeds'.
      rewrite Hd in Hneeds'. congruence.
    - rewrite backfill_row_complete in Hneeds' by done. congruence. }
  split; [done|]. by rewrite main_nothing_to_do.
Qed.

Lemma backfill_completes_the_backlog_witness :
  Pg.jobs_to_update (committed (conn (main Sample.good_driver Sample.backlog).2)) = [] ∧
  (main Sample.driver (main Sample.good_driver Sample.backlog).2).1 = Ret None.
Proof.
  apply backfill_completes_the_backlog.
  - apply (bool_decide_unpack _). vm_compute. exact I.
  - intros k job _. exists "Full description.". by split.
Defined.


End backfill_more.

(** ** Harvest and insert together *)

(** X25 (what was harvested is stored).  When the texts of all harvested
    candidates fit their columns, every url harvested from the page is in
    the table after [main] of part2_scrape.py, newly inserted or there
    before. *)
Theorem phase1_stores_every_candidate {Tag : Type} `{!Part2.Soup Tag}
    (urljoin : string → string → string)
    (session : string → Part2.http_result Tag) (now : Z) (w : World) :
  let jobs := Part2.JobScraper.harvest urljoin session Part2.target_url in
  Forall (λ j, Pg.fits (Part2.DatabaseManager.job_tuple j)) jobs →
  Forall (λ j, dict_get j "job_url" ∈
               job_url <$> committed (conn (Part2.main urljoin session now w).2)) jobs.
Proof.
  intros jobs Hfits. destruct (main_run urljoin session now w) as (l1 & l2 & ->).
  fold jobs. case_bool_decide as Hjobs; [by rewrite Hjobs|].
  cbn [snd conn committed].
  pose proof (bulk_insert_jobs_run now jobs
    (mkWorld (mkConn (committed (conn w)) None (id_seq (conn w))) (log w ++ l1)) Hjobs) as R.
  cbn [conn log view committed txn id_seq default] in R.
  pose proof (insert_pages_concat now
    (Psycopg2.paginate 100 (Part2.DatabaseManager.job_tuple <$> jobs))
    (committed (conn w)) (id_seq (conn w)) (-1)) as Hc.
  rewrite paginate_concat in Hc.
  destruct (Psycopg2.insert_pages now _ _) as [e|[[rows' s'] n]] eqn:Hp.
  - exfalso.
    pose proof (insert_values_error now (Part2.DatabaseManager.job_tuple <$> jobs)
      (committed (conn w), id_seq (conn w), 0)) as He.
    destruct (Pg.insert_values _ _ _ _) as [e'|[[? ?] ?]]; [|done].
    destruct He as (v & (j & -> & Hj)%list_elem_of_fmap & Hv).
    rewrite Forall_forall in Hfits. rewrite coerce_fits in Hv by by apply Hfits. done.
  - rewrite R. cbn [snd conn committed].
    apply insert_pages_urls_stored in Hp. rewrite paginate_concat in Hp.
    pose proof (harvest_urls urljoin session Part2.target_url) as Hurls. fold jobs in Hurls.
    rewrite Forall_fmap in Hp. rewrite Forall_forall in Hp, Hurls, Hfits |- *.
    intros j Hj. destruct (Hp j Hj) as (v' & Hv' & Hin). simpl in Hv'.
    rewrite coerce_fits in Hv' by by apply Hfits. injection Hv' as <-.
    apply Hin. by apply Hurls.
Qed.

Lemma phase1_stores_every_candidate_witness :
  Forall (λ j, dict_get j "job_url" ∈
               job_url <$> committed (conn
                 (Part2.main Html.urljoin Sample.session 10 after_setup).2))
         (Part2.JobScraper.harvest Html.urljoin Sample.session Part2.target_url).
Proof.
  apply phase1_stores_every_candidate.
  apply (bool_decide_unpack _). vm_compute. exact I.
Defined.
